(** * ReactDOMInvalidARIAHook: the development-build ARIA attribute-name check

    A shallow embedding of
    [src/renderers/dom/shared/hooks/ReactDOMInvalidARIAHook.js] and the
    properties of its warning policy.

    - JS strings are sequences of UTF-16 code units ([list N]).
    - The module-level object [warnedProperties] and the calls to [warning]
      are the two effects of the module; they are threaded through a small
      state monad over [World].
    - What the module [require]s (the character class of [DOMProperty], the
      table [validAriaProperties], [isCustomComponent], the stack helpers)
      and the host's [String.prototype.toLowerCase] are gathered in the
      record [Deps]; every result holds for all of them.
    - The first embedding is of the development build, where every binding
      of the module exists. The module [Runtime] embeds the same functions
      with exceptions, the bindings made under [if (__DEV__)] and the heap,
      and is shown to agree with the first in a development build. *)

From Stdlib Require Import NArith String Ascii.
From stdpp Require Import gmap list.

Local Open Scope N_scope.

(** ** JS values *)

Abbreviation JSString := (list N).

(** A string literal of the source, as code units. *)
Definition lit (s : string) : JSString :=
  (λ a, N_of_ascii a) <$> list_ascii_of_string s.

(** Property values are never inspected by the hook; only
    [isCustomComponent] looks at them. *)
Inductive JSValue :=
  | JSUndefined
  | JSNull
  | JSBoolean (b : bool)
  | JSStr (s : JSString)
  | JSRef (handle : N).

(** An object as [for (key in props)] sees it: its enumerable keys in
    enumeration order, each with its value. *)
Abbreviation Props := (list (JSString * JSValue)).

Definition keys (props : Props) : list JSString := props.*1.

Abbreviation DebugID := N.

(** The [element] argument of the Stack hooks. *)
Inductive Element :=
  | Nullish
  | Primitive (v : JSValue)
  | ReactElement (type : JSValue) (props : Props).

(** ** Diagnostics: the five call sites of [warning] *)

Inductive Diagnostic :=
  | InvalidARIAAttribute (name addendum : JSString)
  | InvalidARIADidYouMean (name correctName addendum : JSString)
  | UnknownARIADidYouMean (name standardName addendum : JSString)
  | InvalidAriaProp (invalidProps : list JSString) (type addendum : JSString)
  | InvalidAriaProps (invalidProps : list JSString) (type addendum : JSString).

Definition format (d : Diagnostic) : string :=
  match d with
  | InvalidARIAAttribute _ _ =>
      "Invalid ARIA attribute `%s`. ARIA attributes follow the pattern aria-* and must be lowercase.%s"
  | InvalidARIADidYouMean _ _ _ =>
      "Invalid ARIA attribute `%s`. Did you mean `%s`?%s"
  | UnknownARIADidYouMean _ _ _ =>
      "Unknown ARIA attribute `%s`. Did you mean `%s`?%s"
  | InvalidAriaProp _ _ _ =>
      "Invalid aria prop %s on <%s> tag. For details, see https://fb.me/invalid-aria-prop%s"
  | InvalidAriaProps _ _ _ =>
      "Invalid aria props %s on <%s> tag. For details, see https://fb.me/invalid-aria-prop%s"
  end.

(** [Array.prototype.join]. *)
Fixpoint join (sep : JSString) (l : list JSString) : JSString :=
  match l with
  | [] => []
  | [x] => x
  | x :: rest => x ++ sep ++ join sep rest
  end.

(** [invalidProps.map(prop => '`' + prop + '`').join(', ')] *)
Definition unknownPropString (invalidProps : list JSString) : JSString :=
  join (lit ", ") ((λ prop, lit "`" ++ prop ++ lit "`") <$> invalidProps).

(** The arguments that follow the format in the call. *)
Definition args (d : Diagnostic) : list JSString :=
  match d with
  | InvalidARIAAttribute name addendum => [name; addendum]
  | InvalidARIADidYouMean name correctName addendum =>
      [name; correctName; addendum]
  | UnknownARIADidYouMean name standardName addendum =>
      [name; standardName; addendum]
  | InvalidAriaProp invalidProps type addendum
  | InvalidAriaProps invalidProps type addendum =>
      [unknownPropString invalidProps; type; addendum]
  end.

(** The attribute names a diagnostic reports as offending. *)
Definition offending (d : Diagnostic) : list JSString :=
  match d with
  | InvalidARIAAttribute name _
  | InvalidARIADidYouMean name _ _
  | UnknownARIADidYouMean name _ _ => [name]
  | InvalidAriaProp invalidProps _ _
  | InvalidAriaProps invalidProps _ _ => invalidProps
  end.

Definition cites (n : JSString) (d : Diagnostic) : Prop := n ∈ offending d.

#[global] Instance cites_dec n d : Decision (cites n d).
Proof. unfold cites. apply _. Defined.

Definition isBatched (d : Diagnostic) : bool :=
  match d with
  | InvalidAriaProp _ _ _ | InvalidAriaProps _ _ _ => true
  | _ => false
  end.

(** Number of diagnostics of a log that cite [n]. *)
Definition citations (n : JSString) (log : list Diagnostic) : nat :=
  length (filter (cites n) log).

(** ** State and effects *)

Record World := mkWorld {
  warnedProperties : gmap JSString bool;
  console : list Diagnostic
}.

(** [var warnedProperties = {}] and nothing logged yet. *)
Definition initial : World := mkWorld ∅ [].

Definition M (A : Type) : Type := World → A * World.

#[global] Instance M_ret : MRet M := λ A a w, (a, w).
#[global] Instance M_bind : MBind M :=
  λ A B k m w, let (a, w') := m w in k a w'.

(** [warning(condition, format, ...args)] of fbjs: logs unless the
    condition holds. *)
Definition warning (condition : bool) (d : Diagnostic) : M unit :=
  λ w, if condition then (tt, w)
       else (tt, mkWorld (warnedProperties w) (console w ++ [d])).

(** [warnedProperties[name] = true] *)
Definition markWarned (name : JSString) : M unit :=
  λ w, (tt, mkWorld (<[name := true]> (warnedProperties w)) (console w)).

(** [hasOwnProperty.call(warnedProperties, name) && warnedProperties[name]] *)
Definition isWarned (warned : gmap JSString bool) (name : JSString) : bool :=
  match warned !! name with
  | Some marker => marker
  | None => false
  end.

(** Every marker stored in the cache is [true]. *)
Definition allTrue (warned : gmap JSString bool) : Prop :=
  map_Forall (λ _ marker, marker = true) warned.

(** The two ways a name changes the world. *)
Definition mark (name : JSString) (w : World) : World :=
  mkWorld (<[name := true]> (warnedProperties w)) (console w).

Definition emit (d : Diagnostic) (w : World) : World :=
  mkWorld (warnedProperties w) (console w ++ [d]).

Inductive Verdict :=
  | Accept
  | Report (d : Diagnostic)
  | Defer.

(** What a verdict does to the world, and the value returned. *)
Definition settle (name : JSString) (v : Verdict) (w : World)
  : bool * World :=
  match v with
  | Accept => (true, w)
  | Report d => (true, mark name (emit d w))
  | Defer => (false, mark name w)
  end.

(** ** What the module requires

    [warning], [validAriaProperties] and the stack helpers are bound under
    [if (__DEV__)] when the module is loaded. The embedding is of a build in
    which they are bound, the only one in which the hooks reach
    [validateProperties]; the field [__DEV__] is the flag as the two Stack
    hooks test it.

    Names are stored in [warnedProperties] only after they matched one of
    the two patterns, so every stored key starts with [aria] and none
    collides with a property inherited from [Object.prototype]. *)

Record Deps := mkDeps {
  (** membership in the class [[DOMProperty.ATTRIBUTE_NAME_CHAR]] *)
  ATTRIBUTE_NAME_CHAR : N → bool;
  (** [String.prototype.toLowerCase] *)
  toLowerCase : JSString → JSString;
  (** the own keys of [require('./validAriaProperties')] *)
  validAriaProperties : gset JSString;
  isCustomComponent : JSString → Props → bool;
  (** [ReactComponentTreeHook.getStackAddendumByID] *)
  getStackAddendumByID : DebugID → JSString;
  (** [ReactDebugCurrentFrame.getStackAddendum()]: a string or null *)
  ReactDebugCurrentFrame_getStackAddendum : unit → option JSString;
  __DEV__ : bool
}.

Section Hook.

Context (D : Deps).

(** [o.hasOwnProperty(key)] on the table of known attributes. *)
Definition hasOwnProperty (o : gset JSString) (key : JSString) : bool :=
  bool_decide (key ∈ o).

Definition isUpperAZ (c : N) : bool := (65 <=? c) && (c <=? 90).

(** [/^(aria)-[ATTRIBUTE_NAME_CHAR]*$/.test(name)] *)
Definition rARIA_test (name : JSString) : bool :=
  bool_decide (take 5 name = lit "aria-")
  && forallb (ATTRIBUTE_NAME_CHAR D) (drop 5 name).

(** [/^(aria)[A-Z][ATTRIBUTE_NAME_CHAR]*$/.test(name)] *)
Definition rARIACamel_test (name : JSString) : bool :=
  bool_decide (take 4 name = lit "aria")
  && match drop 4 name with
     | c :: rest => isUpperAZ c && forallb (ATTRIBUTE_NAME_CHAR D) rest
     | [] => false
     end.

Definition getStackAddendum (debugID : option DebugID) : JSString :=
  match debugID with
  | Some id => getStackAddendumByID D id
  | None =>
      match ReactDebugCurrentFrame_getStackAddendum D tt with
      | Some stack => stack
      | None => []
      end
  end.

(** The block guarded by [rARIA.test(name)] and the final [return true]. *)
Definition hyphenatedCheck (name : JSString) (debugID : option DebugID)
  : M bool :=
  if rARIA_test name then
    let lowerCasedName := toLowerCase D name in
    let standardName :=
      if hasOwnProperty (validAriaProperties D) lowerCasedName
      then Some lowerCasedName else None in
    match standardName with
    | None => markWarned name ;; mret false
    | Some standardName =>
        if bool_decide (name ≠ standardName) then
          warning false
            (UnknownARIADidYouMean name standardName
               (getStackAddendum debugID)) ;;
          markWarned name ;;
          mret true
        else mret true
    end
  else mret true.

Definition validateProperty (tagName name : JSString)
  (debugID : option DebugID) : M bool :=
  λ w,
  if isWarned (warnedProperties w) name then (true, w)
  else if rARIACamel_test name then
    let ariaName := lit "aria-" ++ toLowerCase D (drop 4 name) in
    let correctName :=
      if hasOwnProperty (validAriaProperties D) ariaName
      then Some ariaName else None in
    match correctName with
    | None =>
        (warning false
           (InvalidARIAAttribute name (getStackAddendum debugID)) ;;
         markWarned name ;;
         mret true) w
    | Some correctName =>
        if bool_decide (name ≠ correctName) then
          (warning false
             (InvalidARIADidYouMean name correctName
                (getStackAddendum debugID)) ;;
           markWarned name ;;
           mret true) w
        else hyphenatedCheck name debugID w
    end
  else hyphenatedCheck name debugID w.

(** The [for (var key in props)] loop, with [invalidProps] as accumulator. *)
Fixpoint forIn (type : JSString) (debugID : option DebugID)
  (ks : list JSString) (invalidProps : list JSString)
  : M (list JSString) :=
  match ks with
  | [] => mret invalidProps
  | key :: rest =>
      validateProperty type key debugID ≫= λ isValid : bool,
      forIn type debugID rest
        (if isValid then invalidProps else invalidProps ++ [key])
  end.

Definition warnInvalidARIAProps (type : JSString) (props : Props)
  (debugID : option DebugID) : M unit :=
  forIn type debugID (keys props) [] ≫= λ invalidProps : list JSString,
  if (length invalidProps =? 1)%nat then
    warning false
      (InvalidAriaProp invalidProps type (getStackAddendum debugID))
  else if (1 <? length invalidProps)%nat then
    warning false
      (InvalidAriaProps invalidProps type (getStackAddendum debugID))
  else mret tt.

Definition validateProperties (type : JSString) (props : Props)
  (debugID : option DebugID) : M unit :=
  if isCustomComponent D type props then mret tt
  else warnInvalidARIAProps type props debugID.

(** [__DEV__ && element != null && typeof element.type === 'string'] *)
Definition onBeforeMountComponent (debugID : option DebugID)
  (element : Element) : M unit :=
  if __DEV__ D then
    match element with
    | ReactElement (JSStr type) props => validateProperties type props debugID
    | _ => mret tt
    end
  else mret tt.

Definition onBeforeUpdateComponent (debugID : option DebugID)
  (element : Element) : M unit :=
  if __DEV__ D then
    match element with
    | ReactElement (JSStr type) props => validateProperties type props debugID
    | _ => mret tt
    end
  else mret tt.

(** ** The exported operations as calls, and runs of a process *)

Inductive Call :=
  | CallValidateProperties (type : JSString) (props : Props)
      (debugID : option DebugID)
  | CallOnBeforeMountComponent (debugID : option DebugID) (element : Element)
  | CallOnBeforeUpdateComponent (debugID : option DebugID) (element : Element).

Definition perform (c : Call) : M unit :=
  match c with
  | CallValidateProperties type props debugID =>
      validateProperties type props debugID
  | CallOnBeforeMountComponent debugID element =>
      onBeforeMountComponent debugID element
  | CallOnBeforeUpdateComponent debugID element =>
      onBeforeUpdateComponent debugID element
  end.

(** The world after a sequence of calls. *)
Definition run (calls : list Call) (w : World) : World :=
  fold_left (λ w c, (perform c w).2) calls w.

(** ** The verdict on a name, apart from the cache

    [validateProperty] first consults [warnedProperties]; what it does
    otherwise depends on the name alone. *)

Definition hyphenatedVerdict (name : JSString) (debugID : option DebugID)
  : Verdict :=
  if rARIA_test name then
    if hasOwnProperty (validAriaProperties D) (toLowerCase D name) then
      if bool_decide (name ≠ toLowerCase D name) then
        Report (UnknownARIADidYouMean name (toLowerCase D name)
                  (getStackAddendum debugID))
      else Accept
    else Defer
  else Accept.

Definition verdict (name : JSString) (debugID : option DebugID) : Verdict :=
  if rARIACamel_test name then
    let ariaName := lit "aria-" ++ toLowerCase D (drop 4 name) in
    if hasOwnProperty (validAriaProperties D) ariaName then
      if bool_decide (name ≠ ariaName) then
        Report (InvalidARIADidYouMean name ariaName
                  (getStackAddendum debugID))
      else hyphenatedVerdict name debugID
    else Report (InvalidARIAAttribute name (getStackAddendum debugID))
  else hyphenatedVerdict name debugID.

(** The names of an element that the loop hands over to the batched
    report, seen from the world the call starts in. *)
Definition deferred (w : World) (name : JSString) : bool :=
  negb (isWarned (warnedProperties w) name)
  && rARIA_test name
  && negb (hasOwnProperty (validAriaProperties D) (toLowerCase D name)).

(** The batched report for a list of collected names: none, the singular
    message, or the plural one. *)
Definition batchedReport (collected : list JSString) (type : JSString)
  (debugID : option DebugID) : list Diagnostic :=
  match collected with
  | [] => []
  | [_] => [InvalidAriaProp collected type (getStackAddendum debugID)]
  | _ => [InvalidAriaProps collected type (getStackAddendum debugID)]
  end.

(** A name in the canonical form of the table: a member, lowercase and
    hyphenated. *)
Definition canonical (name : JSString) : Prop :=
  name ∈ validAriaProperties D
  ∧ toLowerCase D name = name
  ∧ take 5 name = lit "aria-".

(** A name that is no ARIA attribute at all, or a canonical one. *)
Definition unobjectionable (name : JSString) : Prop :=
  (rARIACamel_test name = false ∧ rARIA_test name = false)
  ∨ canonical name.

(** The names on which [validateProperty] finds fault when they are not
    marked: those matching the camel-case pattern, and those matching the
    hyphenated pattern that are not a key of the table written in
    lowercase. *)
Definition faulted (name : JSString) : bool :=
  rARIACamel_test name
  || (rARIA_test name
      && negb (hasOwnProperty (validAriaProperties D) (toLowerCase D name)
               && bool_decide (toLowerCase D name = name))).

End Hook.

(** ** A concrete instance, for running the hook on examples *)

Definition inRange (lo hi c : N) : bool := (lo <=? c) && (c <=? hi).

(** The XML name characters, the shape of [DOMProperty.ATTRIBUTE_NAME_CHAR]. *)
Definition xmlNameChar (c : N) : bool :=
  (c =? 58) || inRange 65 90 c || (c =? 95) || inRange 97 122 c
  || inRange 0xC0 0xD6 c || inRange 0xD8 0xF6 c || inRange 0xF8 0x2FF c
  || inRange 0x370 0x37D c || inRange 0x37F 0x1FFF c
  || inRange 0x200C 0x200D c || inRange 0x2070 0x218F c
  || inRange 0x2C00 0x2FEF c || inRange 0x3001 0xD7FF c
  || inRange 0xF900 0xFDCF c || inRange 0xFDF0 0xFFFD c
  || (c =? 45) || (c =? 46) || inRange 48 57 c || (c =? 0xB7)
  || inRange 0x300 0x36F c || inRange 0x203F 0x2040 c.

(** [toLowerCase] on strings of ASCII code units. *)
Definition asciiToLowerCase (s : JSString) : JSString :=
  (λ c, if inRange 65 90 c then c + 32 else c) <$> s.

Definition someAriaProperties : gset JSString :=
  list_to_set (lit <$> ["aria-hidden"; "aria-label"; "aria-labelledby";
                        "aria-checked"; "aria-describedby"]%string).

(** [tagName.indexOf('-') >= 0 || props.is != null] *)
Definition dashOrIs (tagName : JSString) (props : Props) : bool :=
  bool_decide (45 ∈ tagName)
  || match list_find (λ kv, kv.1 = lit "is") props with
     | Some (_, (_, JSUndefined)) | Some (_, (_, JSNull)) | None => false
     | Some _ => true
     end.

Definition sampleDeps : Deps :=
  {| ATTRIBUTE_NAME_CHAR := xmlNameChar;
     toLowerCase := asciiToLowerCase;
     validAriaProperties := someAriaProperties;
     isCustomComponent := dashOrIs;
     getStackAddendumByID := λ _, lit " (in div, created by App)";
     ReactDebugCurrentFrame_getStackAddendum := λ _, None;
     __DEV__ := true |}.

(** The same instance in a production build. *)
Definition productionDeps : Deps :=
  {| ATTRIBUTE_NAME_CHAR := xmlNameChar;
     toLowerCase := asciiToLowerCase;
     validAriaProperties := someAriaProperties;
     isCustomComponent := dashOrIs;
     getStackAddendumByID := λ _, lit " (in div, created by App)";
     ReactDebugCurrentFrame_getStackAddendum := λ _, None;
     __DEV__ := false |}.

(** ** The module as it runs: exceptions, bindings and the heap

    A second embedding of the same functions, for what the first cannot
    say. A call completes normally or throws. The bindings made under
    [if (__DEV__)] (lines 25 to 34) are [undefined] in a build without the
    flag, and using one of them throws a [TypeError]. The properties object
    is passed by reference and lives in the heap, which is part of the state
    a function could write. [isCustomComponent] and [DOMProperty] are
    required outside the block and are always bound. *)

Module Runtime.

Inductive Exception :=
  | TypeError.

Inductive Completion (A : Type) :=
  | Normal (a : A)
  | Throw (e : Exception).

Arguments Normal {A} a.
Arguments Throw {A} e.

(** The world of the hook, and the objects of the heap by reference. *)
Record Store := mkStore {
  world : World;
  objects : gmap N Props
}.

(** The object a reference denotes. *)
Definition deref (s : Store) (ref : N) : Props :=
  default [] (objects s !! ref).

(** A computation leaves a store behind also when it throws. *)
Definition R (A : Type) : Type := Store → Completion A * Store.

#[global] Instance R_ret : MRet R := λ A a s, (Normal a, s).
#[global] Instance R_bind : MBind R :=
  λ A B k m s,
    match m s with
    | (Normal a, s') => k a s'
    | (Throw e, s') => (Throw e, s')
    end.

Definition throw {A} (e : Exception) : R A := λ s, (Throw e, s).

(** An effect on the world of the hook alone. *)
Definition onWorld {A} (m : M A) : R A :=
  λ s, let (a, w') := m (world s) in (Normal a, mkStore w' (objects s)).

(** Calling, or reading a property of, a variable that may be
    [undefined]. *)
Definition withBinding {A B} (binding : option A) (k : A → R B) : R B :=
  match binding with
  | Some value => k value
  | None => throw TypeError
  end.


Section Runtime.

Context (D : Deps).

(** A [var] declared inside [if (__DEV__) { ... }]. *)
Definition devOnly {A} (value : A) : option A :=
  if __DEV__ D then Some value else None.

Definition getStackAddendum (debugID : option DebugID) : R JSString :=
  match debugID with
  | Some id =>
      withBinding (devOnly (getStackAddendumByID D))
        (λ getStackAddendumByID, mret (getStackAddendumByID id))
  | None =>
      withBinding (devOnly (ReactDebugCurrentFrame_getStackAddendum D))
        (λ getStackAddendum,
           match getStackAddendum tt with
           | Some stack => mret stack
           | None => mret []
           end)
  end.

(** [validAriaProperties.hasOwnProperty(key)] *)
Definition isValidAriaProperty (key : JSString) : R bool :=
  withBinding (devOnly (validAriaProperties D))
    (λ table, mret (hasOwnProperty table key)).

(** [warning(false, format, ...args)], the arguments already evaluated. *)
Definition warn (d : Diagnostic) : R unit :=
  withBinding (devOnly warning) (λ warning, onWorld (warning false d)).

Definition hyphenatedCheck (name : JSString) (debugID : option DebugID)
  : R bool :=
  if rARIA_test D name then
    let lowerCasedName := toLowerCase D name in
    isValidAriaProperty lowerCasedName ≫= λ known : bool,
    let standardName := if known then Some lowerCasedName else None in
    match standardName with
    | None => onWorld (markWarned name) ;; mret false
    | Some standardName =>
        if bool_decide (name ≠ standardName) then
          getStackAddendum debugID ≫= λ addendum : JSString,
          warn (UnknownARIADidYouMean name standardName addendum) ;;
          onWorld (markWarned name) ;;
          mret true
        else mret true
    end
  else mret true.

Definition validateProperty (tagName name : JSString)
  (debugID : option DebugID) : R bool :=
  λ s,
  if isWarned (warnedProperties (world s)) name then (Normal true, s)
  else if rARIACamel_test D name then
    (let ariaName := lit "aria-" ++ toLowerCase D (drop 4 name) in
     isValidAriaProperty ariaName ≫= λ known : bool,
     let correctName := if known then Some ariaName else None in
     match correctName with
     | None =>
         getStackAddendum debugID ≫= λ addendum : JSString,
         warn (InvalidARIAAttribute name addendum) ;;
         onWorld (markWarned name) ;;
         mret true
     | Some correctName =>
         if bool_decide (name ≠ correctName) then
           getStackAddendum debugID ≫= λ addendum : JSString,
           warn (InvalidARIADidYouMean name correctName addendum) ;;
           onWorld (markWarned name) ;;
           mret true
         else hyphenatedCheck name debugID
     end) s
  else hyphenatedCheck name debugID s.

Fixpoint forIn (type : JSString) (debugID : option DebugID)
  (ks : list JSString) (invalidProps : list JSString)
  : R (list JSString) :=
  match ks with
  | [] => mret invalidProps
  | key :: rest =>
      validateProperty type key debugID ≫= λ isValid : bool,
      forIn type debugID rest
        (if isValid then invalidProps else invalidProps ++ [key])
  end.

(** [props] is a reference; the loop enumerates the keys of the object it
    denotes. *)
Definition warnInvalidARIAProps (type : JSString) (props : N)
  (debugID : option DebugID) : R unit :=
  λ s,
  (forIn type debugID (keys (deref s props)) []
     ≫= λ invalidProps : list JSString,
   if (length invalidProps =? 1)%nat then
     getStackAddendum debugID ≫= λ addendum : JSString,
     warn (InvalidAriaProp invalidProps type addendum)
   else if (1 <? length invalidProps)%nat then
     getStackAddendum debugID ≫= λ addendum : JSString,
     warn (InvalidAriaProps invalidProps type addendum)
   else mret tt) s.

Definition validateProperties (type : JSString) (props : N)
  (debugID : option DebugID) : R unit :=
  λ s,
  if isCustomComponent D type (deref s props) then (Normal tt, s)
  else warnInvalidARIAProps type props debugID s.

End Runtime.

End Runtime.

(** * Properties *)

Lemma lit_aria : lit "aria" = [97; 114; 105; 97].
Proof. reflexivity. Qed.

Lemma lit_aria_dash : lit "aria-" = [97; 114; 105; 97; 45].
Proof. reflexivity. Qed.

Lemma citations_app n l1 l2 :
  citations n (l1 ++ l2) = (citations n l1 + citations n l2)%nat.
Proof. unfold citations. by rewrite filter_app, length_app. Qed.

Lemma citations_nil n : citations n [] = 0%nat.
Proof. reflexivity. Qed.

Lemma citations_singleton n d :
  citations n [d] = if decide (cites n d) then 1%nat else 0%nat.
Proof.
  unfold citations. rewrite filter_cons, filter_nil.
  by destruct (decide (cites n d)).
Qed.

Lemma citations_zero n l : citations n l = 0%nat ↔ Forall (λ d, ¬ cites n d) l.
Proof.
  unfold citations. rewrite length_zero_iff_nil.
  induction l as [|d l IH]; [by split; [constructor|]|].
  rewrite filter_cons, Forall_cons.
  destruct (decide (cites n d)); [|tauto].
  split; [discriminate|tauto].
Qed.

Lemma isWarned_insert warned k n :
  isWarned (<[k := true]> warned) n
  = if decide (k = n) then true else isWarned warned n.
Proof. unfold isWarned. rewrite lookup_insert. by destruct (decide (k = n)). Qed.

Section Properties.

Context (D : Deps).

Implicit Types (name n k type tagName : JSString) (w : World)
  (debugID : option DebugID) (props : Props).

(** A name cannot match both patterns: after [aria] comes either an
    uppercase letter or a hyphen. *)
Lemma camel_take5 name :
  rARIACamel_test D name = true → take 5 name ≠ lit "aria-".
Proof.
  unfold rARIACamel_test. rewrite andb_true_iff, bool_decide_eq_true.
  intros [H4 Hrest] H5.
  destruct name as [|c0 [|c1 [|c2 [|c3 [|c4 rest]]]]]; simpl in *;
    try discriminate.
  rewrite lit_aria_dash in H5. injection H5 as _ _ _ _ ->.
  discriminate.
Qed.

Lemma camel_excludes_hyphenated name :
  rARIACamel_test D name = true → rARIA_test D name = false.
Proof.
  intros Hc. unfold rARIA_test.
  rewrite bool_decide_eq_false_2; [done|]. by apply camel_take5.
Qed.

Lemma camel_differs_from_canonical name rest :
  rARIACamel_test D name = true → name ≠ lit "aria-" ++ rest.
Proof.
  intros Hc ->. by apply camel_take5 in Hc.
Qed.

Lemma hyphenatedCheck_verdict name debugID w :
  hyphenatedCheck D name debugID w
  = settle name (hyphenatedVerdict D name debugID) w.
Proof.
  unfold hyphenatedCheck, hyphenatedVerdict.
  destruct (rARIA_test D name); [|done].
  destruct (hasOwnProperty _ _); [|done].
  by destruct (bool_decide _).
Qed.

(** [validateProperty] is the cache check followed by the verdict. *)
Lemma validateProperty_verdict tagName name debugID w :
  validateProperty D tagName name debugID w
  = if isWarned (warnedProperties w) name then (true, w)
    else settle name (verdict D name debugID) w.
Proof.
  unfold validateProperty, verdict.
  destruct (isWarned _ _); [done|].
  destruct (rARIACamel_test D name); [|apply hyphenatedCheck_verdict].
  cbv zeta.
  destruct (hasOwnProperty _ _); [|done].
  destruct (bool_decide _); [done|apply hyphenatedCheck_verdict].
Qed.

Lemma hyphenatedVerdict_report name debugID d :
  hyphenatedVerdict D name debugID = Report d →
  offending d = [name] ∧ isBatched d = false.
Proof.
  unfold hyphenatedVerdict. intros H.
  repeat case_match; simplify_eq; done.
Qed.

(** A diagnostic decided by the verdict on a name reports that name, and is
    not the batched report. *)
Lemma verdict_report name debugID d :
  verdict D name debugID = Report d →
  offending d = [name] ∧ isBatched d = false.
Proof.
  unfold verdict. intros H.
  repeat case_match; simplify_eq; eauto using hyphenatedVerdict_report.
Qed.

Lemma verdict_defer name debugID :
  verdict D name debugID = Defer ↔
  rARIA_test D name = true
  ∧ hasOwnProperty (validAriaProperties D) (toLowerCase D name) = false.
Proof.
  unfold verdict, hyphenatedVerdict. split.
  - intros H. repeat case_match; simplify_eq; done.
  - intros [Hh Hk].
    destruct (rARIACamel_test D name) eqn:Hc.
    { apply camel_excludes_hyphenated in Hc. congruence. }
    by rewrite Hh, Hk.
Qed.

(** The three things one visit of the loop can do. *)
Lemma validateProperty_outcome tagName k debugID w :
  (validateProperty D tagName k debugID w = (true, w)
   ∧ (isWarned (warnedProperties w) k = true
      ∨ verdict D k debugID = Accept))
  ∨ (∃ d, validateProperty D tagName k debugID w = (true, mark k (emit d w))
          ∧ isWarned (warnedProperties w) k = false
          ∧ verdict D k debugID = Report d
          ∧ offending d = [k] ∧ isBatched d = false)
  ∨ (validateProperty D tagName k debugID w = (false, mark k w)
     ∧ isWarned (warnedProperties w) k = false
     ∧ verdict D k debugID = Defer).
Proof.
  rewrite validateProperty_verdict.
  destruct (isWarned _ k) eqn:Hw; [by left; auto|].
  destruct (verdict D k debugID) as [|d|] eqn:Hv; simpl.
  - left; auto.
  - right; left. exists d. destruct (verdict_report _ _ _ Hv). auto.
  - right; right. auto.
Qed.

(** The accumulator only grows at its end: the loop started on [acc] is
    the loop started on the empty list, with [acc] in front. *)
Lemma forIn_acc type debugID ks acc w :
  forIn D type debugID ks acc w
  = (acc ++ (forIn D type debugID ks [] w).1,
     (forIn D type debugID ks [] w).2).
Proof.
  revert acc w. induction ks as [|k ks IH]; intros acc w; simpl.
  { unfold mret, M_ret. simpl. by rewrite app_nil_r. }
  unfold mbind, M_bind.
  destruct (validateProperty D type k debugID w) as [b w1].
  rewrite (IH (if b then acc else acc ++ [k])).
  rewrite (IH (if b then [] else [] ++ [k])).
  destruct b; simpl; [done|]. by rewrite <- app_assoc.
Qed.

Lemma forIn_cons type debugID k ks w :
  forIn D type debugID (k :: ks) [] w
  = let v := validateProperty D type k debugID w in
    let r := forIn D type debugID ks [] v.2 in
    ((if v.1 then [] else [k]) ++ r.1, r.2).
Proof.
  simpl. unfold mbind, M_bind.
  destruct (validateProperty D type k debugID w) as [b w1].
  rewrite forIn_acc. by destruct b.
Qed.

Lemma forIn_nil type debugID w : forIn D type debugID [] [] w = ([], w).
Proof. reflexivity. Qed.

(** The call on a standard element: the loop, then the batched report. *)
Lemma warnInvalidARIAProps_eq type props debugID w :
  warnInvalidARIAProps D type props debugID w
  = let r := forIn D type debugID (keys props) [] w in
    (tt, mkWorld (warnedProperties r.2)
           (console r.2 ++ batchedReport D r.1 type debugID)).
Proof.
  unfold warnInvalidARIAProps, mbind, M_bind.
  destruct (forIn D type debugID (keys props) [] w) as [inv [warned log]].
  destruct inv as [|a [|b inv]]; simpl;
    unfold mret, M_ret, warning; simpl; by rewrite ?app_nil_r.
Qed.

Lemma offending_batchedReport collected type debugID d :
  d ∈ batchedReport D collected type debugID → offending d = collected.
Proof.
  destruct collected as [|a [|b l]]; simpl;
    rewrite ?list_elem_of_singleton; [by intros ?%elem_of_nil| |];
    by intros ->.
Qed.

Lemma citations_batchedReport n collected type debugID :
  citations n (batchedReport D collected type debugID)
  = if decide (n ∈ collected) then 1%nat else 0%nat.
Proof.
  destruct collected as [|a [|b l]]; simpl.
  - reflexivity.
  - rewrite citations_singleton. unfold cites. simpl.
    repeat case_decide; done.
  - rewrite citations_singleton. unfold cites. simpl.
    repeat case_decide; done.
Qed.

(** Every exported operation either does nothing or is the loop and the
    batched report on some element. *)
Lemma perform_cases c w :
  perform D c w = (tt, w)
  ∨ ∃ type props debugID,
      isCustomComponent D type props = false
      ∧ perform D c w = warnInvalidARIAProps D type props debugID w.
Proof.
  destruct c as [type props debugID|debugID element|debugID element]; simpl;
    unfold onBeforeMountComponent, onBeforeUpdateComponent,
      validateProperties.
  - destruct (isCustomComponent D type props) eqn:Hc; [by left|].
    right. eauto.
  - destruct (__DEV__ D); [|by left].
    destruct element as [|v|[| |b|type|h] props]; try by left.
    destruct (isCustomComponent D type props) eqn:Hc; [by left|].
    right. eauto.
  - destruct (__DEV__ D); [|by left].
    destruct element as [|v|[| |b|type|h] props]; try by left.
    destruct (isCustomComponent D type props) eqn:Hc; [by left|].
    right. eauto.
Qed.

Lemma run_snoc calls c w :
  run D (calls ++ [c]) w = (perform D c (run D calls w)).2.
Proof. unfold run. by rewrite fold_left_app. Qed.

Lemma isWarned_mark k n w :
  isWarned (warnedProperties (mark k w)) n
  = if decide (k = n) then true else isWarned (warnedProperties w) n.
Proof. apply isWarned_insert. Qed.

Lemma citations_cons_report n d k new :
  offending d = [k] →
  citations n (d :: new)
  = ((if decide (n = k) then 1 else 0) + citations n new)%nat.
Proof.
  intros Hoff. unfold citations. rewrite filter_cons.
  destruct (decide (cites n d)) as [Hc|Hc]; unfold cites in Hc;
    rewrite Hoff, list_elem_of_singleton in Hc;
    destruct (decide (n = k)); done.
Qed.

(** What the loop does to one name [n]: the diagnostics it adds, whether
    [n] is collected, and the mark of [n]. *)
Lemma forIn_track n type debugID ks w :
  let r := forIn D type debugID ks [] w in
  ∃ new,
    console (snd r) = console w ++ new
    ∧ Forall (λ d, isBatched d = false) new
    ∧ ((isWarned (warnedProperties w) n = true
        ∨ verdict D n debugID = Accept ∨ n ∉ ks) →
       (n ∉ fst r) ∧ citations n new = 0%nat
       ∧ warnedProperties (snd r) !! n = warnedProperties w !! n)
    ∧ (citations n new + (if decide (n ∈ (fst r)) then 1 else 0) ≤ 1)%nat
    ∧ (((1 ≤ citations n new)%nat ∨ n ∈ (fst r)) →
       isWarned (warnedProperties (snd r)) n = true).
Proof.
  revert w. induction ks as [|k ks IH]; intros w.
  { exists []. simpl. rewrite app_nil_r, citations_nil.
    split_and!; [done|constructor| | |].
    - intros _. split_and!; [apply not_elem_of_nil|done..].
    - lia.
    - intros [?|Hin]; [lia|by apply elem_of_nil in Hin]. }
  rewrite forIn_cons. cbv zeta.
  destruct (validateProperty_outcome type k debugID w)
    as [[-> Hsame]|[(d & -> & Hw & Hv & Hoff & Hnb)|(-> & Hw & Hv)]]; simpl.
  - (* nothing happens at [k] *)
    destruct (IH w) as (new & Hlog & Hnb & Hquiet & Hone & Hmark).
    exists new. split_and!; [done..| |done|done].
    intros Hq. apply Hquiet.
    destruct Hq as [?|[?|Hnin]]; [auto..|].
    right; right. by apply not_elem_of_cons in Hnin as [_ ?].
  - (* a diagnostic on [k] alone *)
    destruct (IH (mark k (emit d w)))
      as (new & Hlog & Hnb' & Hquiet & Hone & Hmark).
    exists (d :: new). rewrite Hlog. simpl.
    split_and!; [by rewrite <- app_assoc|by constructor| | |].
    + intros Hq.
      assert (k ≠ n) as Hkn.
      { intros ->. destruct Hq as [?|[?|Hnin]]; [congruence..|].
        apply Hnin. by left. }
      destruct Hquiet as (? & ? & ->).
      { destruct Hq as [Hq|[?|Hnin]]; [|auto|].
        - left. rewrite isWarned_mark. destruct (decide (k = _)); simpl; auto; congruence.
        - right; right. by apply not_elem_of_cons in Hnin as [_ ?]. }
      split_and!; [done| |by apply lookup_insert_ne].
      rewrite (citations_cons_report _ _ _ _ Hoff).
      destruct (decide (n = k)); [congruence|lia].
    + rewrite (citations_cons_report _ _ _ _ Hoff).
      destruct (decide (n = k)) as [->|Hkn]; [|simpl; lia].
      destruct Hquiet as (? & -> & _).
      { left. rewrite isWarned_mark. destruct (decide (k = _)); simpl; auto; congruence. }
      destruct (decide (k ∈ _)); [done|lia].
    + rewrite (citations_cons_report _ _ _ _ Hoff).
      destruct (decide (n = k)) as [->|Hkn].
      * intros _. unfold isWarned. destruct Hquiet as (_ & _ & ->).
        { left. rewrite isWarned_mark. destruct (decide (k = _)); simpl; auto; congruence. }
        simpl. by rewrite lookup_insert_eq.
      * intros [?|?]; apply Hmark; [left; simpl in *; lia|by right].
  - (* [k] is collected *)
    destruct (IH (mark k w)) as (new & Hlog & Hnb & Hquiet & Hone & Hmark).
    exists new. rewrite Hlog. simpl.
    split_and!; [done|done| | |].
    + intros Hq.
      assert (k ≠ n) as Hkn.
      { intros ->. destruct Hq as [?|[?|Hnin]]; [congruence..|].
        apply Hnin. by left. }
      destruct Hquiet as (? & ? & ->).
      { destruct Hq as [Hq|[?|Hnin]]; [|auto|].
        - left. rewrite isWarned_mark. destruct (decide (k = _)); simpl; auto; congruence.
        - right; right. by apply not_elem_of_cons in Hnin as [_ ?]. }
      split_and!; [|done|by apply lookup_insert_ne].
      apply not_elem_of_cons. auto.
    + destruct (decide (n = k)) as [->|Hkn].
      * destruct Hquiet as (? & -> & _).
        { left. rewrite isWarned_mark. destruct (decide (k = _)); simpl; auto; congruence. }
        destruct (decide (k ∈ k :: _)); lia.
      * destruct (decide (n ∈ k :: _)) as [Hin|Hin];
          destruct (decide (n ∈ _)) as [Hin'|Hin']; try lia.
        exfalso. apply Hin'. by apply elem_of_cons in Hin as [?|?].
    + destruct (decide (n = k)) as [->|Hkn].
      * intros _. unfold isWarned. destruct Hquiet as (_ & _ & ->).
        { left. rewrite isWarned_mark. destruct (decide (k = _)); simpl; auto; congruence. }
        simpl. by rewrite lookup_insert_eq.
      * intros [?|Hin]; apply Hmark; [by left|right].
        apply elem_of_cons in Hin as [?|?]; done.
Qed.

(** The loop only appends to the log, and never the batched report. *)
Lemma forIn_log type debugID ks w :
  ∃ new,
    console (snd (forIn D type debugID ks [] w)) = console w ++ new
    ∧ Forall (λ d, isBatched d = false) new.
Proof.
  destruct (forIn_track [] type debugID ks w) as (new & Hlog & Hnb & _).
  eauto.
Qed.

(** What one operation does to one name [n]. *)
Lemma perform_track n c w :
  let w' := snd (perform D c w) in
  ∃ new,
    console w' = console w ++ new
    ∧ ((isWarned (warnedProperties w) n = true
        ∨ ∀ debugID, verdict D n debugID = Accept) →
       citations n new = 0%nat
       ∧ warnedProperties w' !! n = warnedProperties w !! n)
    ∧ (citations n new ≤ 1)%nat
    ∧ ((1 ≤ citations n new)%nat → isWarned (warnedProperties w') n = true).
Proof.
  destruct (perform_cases c w) as [->|(type & props & debugID & _ & ->)].
  { exists []. simpl. rewrite app_nil_r, citations_nil.
    split_and!; [done|done|lia|lia]. }
  rewrite warnInvalidARIAProps_eq. cbv zeta. simpl.
  destruct (forIn_track n type debugID (keys props) w)
    as (new & Hlog & _ & Hquiet & Hone & Hmark).
  exists (new ++ batchedReport D
            (fst (forIn D type debugID (keys props) [] w)) type debugID).
  rewrite Hlog, citations_app, citations_batchedReport.
  split_and!; [by rewrite app_assoc| | |].
  - intros Hq. destruct Hquiet as (Hnin & -> & ->); [destruct Hq; auto|].
    by rewrite decide_False.
  - done.
  - intros Hc. apply Hmark.
    destruct (decide (n ∈ _)); [by right|left; lia].
Qed.

Lemma isWarned_lookup (warned warned' : gmap JSString bool) n :
  warned' !! n = warned !! n → isWarned warned' n = isWarned warned n.
Proof. unfold isWarned. by intros ->. Qed.

(** Along every run from the initial world, a name is cited by at most one
    diagnostic, and a cited name is marked. *)
Lemma run_citations calls n :
  let w := run D calls initial in
  (citations n (console w) ≤ 1)%nat
  ∧ ((1 ≤ citations n (console w))%nat →
     isWarned (warnedProperties w) n = true).
Proof.
  induction calls as [|c calls IH] using rev_ind.
  { simpl. rewrite citations_nil. split; lia. }
  rewrite run_snoc. cbv zeta in *.
  destruct IH as [IH1 IH2].
  destruct (perform_track n c (run D calls initial))
    as (new & -> & Hquiet & Hone & Hmark).
  rewrite citations_app.
  destruct (isWarned (warnedProperties (run D calls initial)) n) eqn:Hw.
  - destruct Hquiet as [-> Hsame]; [by left|].
    rewrite (isWarned_lookup _ _ _ Hsame), Hw. split; [lia|done].
  - assert (citations n (console (run D calls initial)) = 0%nat) as ->.
    { destruct (citations n _); [done|]. discriminate IH2. lia. }
    split; [lia|]. intros Hc. apply Hmark. lia.
Qed.

(** The short-circuit of [validateProperty] on a marked name. *)
Lemma validateProperty_warned tagName name debugID w :
  isWarned (warnedProperties w) name = true →
  validateProperty D tagName name debugID w = (true, w).
Proof. intros Hw. by rewrite validateProperty_verdict, Hw. Qed.

(** C1. Over all the calls of a process, started with the empty cache, at
    most one emitted diagnostic cites a given authored name as offending.
    Once a name has been reported it is marked in [warnedProperties], the
    first test of [validateProperty] returns at once on it, and no later
    call emits a diagnostic that cites it. *)
Theorem name_reported_at_most_once calls n :
  let w := run D calls initial in
  (citations n (console w) ≤ 1)%nat
  ∧ ((1 ≤ citations n (console w))%nat →
     isWarned (warnedProperties w) n = true
     ∧ (∀ tagName debugID,
          validateProperty D tagName n debugID w = (true, w))
     ∧ ∀ c, ∃ new,
         console (snd (perform D c w)) = console w ++ new
         ∧ Forall (λ d, ¬ cites n d) new).
Proof.
  destruct (run_citations calls n) as [Hone Hmark]. cbv zeta.
  split; [done|]. intros Hc. specialize (Hmark Hc).
  split_and!; [done| |].
  - intros. by apply validateProperty_warned.
  - intros c.
    destruct (perform_track n c (run D calls initial))
      as (new & Hlog & Hquiet & _).
    exists new. split; [done|].
    apply citations_zero. apply Hquiet. by left.
Qed.

Lemma allTrue_presence warned n :
  allTrue warned → is_Some (warned !! n) ↔ isWarned warned n = true.
Proof.
  intros Hall. unfold isWarned. split.
  - intros [marker Hn]. rewrite Hn. by apply (Hall n).
  - destruct (warned !! n); [eauto|discriminate].
Qed.

Lemma mark_grows k w :
  allTrue (warnedProperties w) →
  warnedProperties w ⊆ warnedProperties (mark k w)
  ∧ allTrue (warnedProperties (mark k w)).
Proof.
  intros Hall. simpl. split.
  - destruct (warnedProperties w !! k) as [marker|] eqn:Hk.
    + rewrite (Hall k marker Hk) in Hk. by rewrite insert_id.
    + by apply insert_subseteq.
  - by apply map_Forall_insert_2.
Qed.

Lemma validateProperty_grows tagName k debugID w :
  allTrue (warnedProperties w) →
  let w' := snd (validateProperty D tagName k debugID w) in
  warnedProperties w ⊆ warnedProperties w' ∧ allTrue (warnedProperties w').
Proof.
  intros Hall.
  destruct (validateProperty_outcome tagName k debugID w)
    as [[-> _]|[(d & -> & _)|(-> & _)]]; cbv zeta.
  - done.
  - apply (mark_grows k (emit d w)), Hall.
  - by apply mark_grows.
Qed.

Lemma forIn_grows type debugID ks w :
  allTrue (warnedProperties w) →
  let w' := snd (forIn D type debugID ks [] w) in
  warnedProperties w ⊆ warnedProperties w' ∧ allTrue (warnedProperties w').
Proof.
  revert w. induction ks as [|k ks IH]; intros w Hall; [done|].
  rewrite forIn_cons. cbv zeta. simpl.
  destruct (validateProperty_grows type k debugID w Hall) as [Hsub Hall1].
  destruct (IH _ Hall1) as [Hsub' Hall'].
  split; [by etrans|done].
Qed.

Lemma perform_grows c w :
  allTrue (warnedProperties w) →
  let w' := snd (perform D c w) in
  warnedProperties w ⊆ warnedProperties w' ∧ allTrue (warnedProperties w').
Proof.
  intros Hall.
  destruct (perform_cases c w) as [->|(type & props & debugID & _ & ->)];
    [done|].
  rewrite warnInvalidARIAProps_eq. cbv zeta. simpl.
  by apply forIn_grows.
Qed.

Lemma run_allTrue calls : allTrue (warnedProperties (run D calls initial)).
Proof.
  induction calls as [|c calls IH] using rev_ind.
  { apply map_Forall_empty. }
  rewrite run_snoc. by apply perform_grows.
Qed.

(** C9. The cache is empty when the process starts. Every operation leaves
    it as it is or adds entries: each entry present before is present after
    with the same marker. Every marker ever stored is [true], so a name is
    present exactly when the test of [validateProperty] on it succeeds. *)
Theorem warnedProperties_monotone calls c :
  warnedProperties initial = ∅
  ∧ let w := run D calls initial in
    warnedProperties w ⊆ warnedProperties (snd (perform D c w))
    ∧ map_Forall (λ _ marker, marker = true) (warnedProperties w)
    ∧ ∀ n, is_Some (warnedProperties w !! n)
           ↔ isWarned (warnedProperties w) n = true.
Proof.
  split; [done|]. cbv zeta.
  pose proof (run_allTrue calls) as Hall.
  split_and!; [by apply perform_grows|done|].
  intros n. by apply allTrue_presence.
Qed.

(** C6. When [isCustomComponent] reports a custom element,
    [validateProperties] returns at once: nothing is logged and
    [warnedProperties] is as before, whatever the properties are. *)
Theorem custom_element_bypass type props debugID w :
  isCustomComponent D type props = true →
  validateProperties D type props debugID w = (tt, w).
Proof. intros Hc. unfold validateProperties. by rewrite Hc. Qed.

(** C10. The Stack hooks validate only an element that is not null and
    whose [type] is a string. On any other element they log nothing and
    change nothing; on such an element they are [validateProperties] on its
    type and props in a development build, and do nothing otherwise. *)
Theorem stack_hooks_guard debugID element w :
  ((∀ type props, element ≠ ReactElement (JSStr type) props) →
   onBeforeMountComponent D debugID element w = (tt, w)
   ∧ onBeforeUpdateComponent D debugID element w = (tt, w))
  ∧ (∀ type props, element = ReactElement (JSStr type) props →
     onBeforeMountComponent D debugID element w
     = (if __DEV__ D then validateProperties D type props debugID w
        else (tt, w))
     ∧ onBeforeUpdateComponent D debugID element w
       = (if __DEV__ D then validateProperties D type props debugID w
          else (tt, w))).
Proof.
  unfold onBeforeMountComponent, onBeforeUpdateComponent. split.
  - intros Hne. destruct (__DEV__ D); [|done].
    destruct element as [|v|[| |b|type|h] props]; try done.
    by destruct (Hne type props).
  - intros type props ->. by destruct (__DEV__ D).
Qed.



Lemma unobjectionable_accept n debugID :
  unobjectionable D n → verdict D n debugID = Accept.
Proof.
  unfold verdict, hyphenatedVerdict.
  intros [[-> ->]|(Hin & Hlow & Hpre)]; [done|].
  destruct (rARIACamel_test D n) eqn:Hc.
  { by apply camel_take5 in Hc. }
  destruct (rARIA_test D n); [|done].
  rewrite Hlow. unfold hasOwnProperty.
  rewrite bool_decide_eq_true_2 by done.
  by rewrite bool_decide_eq_false_2 by auto.
Qed.

(** A loop over names that are all accepted does nothing. *)
Lemma forIn_all_accepted type debugID ks w :
  Forall (λ k, verdict D k debugID = Accept) ks →
  forIn D type debugID ks [] w = ([], w).
Proof.
  induction 1 as [|k ks Hk _ IH]; [done|].
  rewrite forIn_cons, validateProperty_verdict, Hk. simpl.
  destruct (isWarned _ k); simpl; by rewrite IH.
Qed.

(** C7. Let [n] match neither the camel-case nor the hyphenated pattern, or
    be a member of the table written exactly in its canonical form. Then
    [validateProperty] accepts [n] without logging or marking anything, no
    operation ever emits a diagnostic that cites [n], and an element all of
    whose property names are of this kind is validated silently. *)
Theorem unobjectionable_names_silent :
  (∀ n, unobjectionable D n →
     (∀ tagName debugID w,
        validateProperty D tagName n debugID w = (true, w))
     ∧ ∀ c w, ∃ new,
         console (snd (perform D c w)) = console w ++ new
         ∧ Forall (λ d, ¬ cites n d) new)
  ∧ ∀ type props debugID w,
      Forall (unobjectionable D) (keys props) →
      validateProperties D type props debugID w = (tt, w).
Proof.
  split.
  - intros n Hn. split.
    + intros tagName debugID w.
      rewrite validateProperty_verdict, unobjectionable_accept by done.
      by destruct (isWarned _ n).
    + intros c w.
      destruct (perform_track n c w) as (new & Hlog & Hquiet & _).
      exists new. split; [done|]. apply citations_zero, Hquiet.
      right. intros debugID. by apply unobjectionable_accept.
  - intros type props debugID w Hall. unfold validateProperties.
    destruct (isCustomComponent D type props); [done|].
    rewrite warnInvalidARIAProps_eq, forIn_all_accepted.
    + destruct w. simpl. by rewrite app_nil_r.
    + eapply Forall_impl; [done|]. intros k Hk.
      by apply unobjectionable_accept.
Qed.

(** A name whose verdict is a diagnostic, not yet marked, and among the
    keys of the loop: the diagnostic is logged once, nothing else logged by
    the loop cites the name, and the name is marked but not collected. *)
Lemma forIn_report name d type debugID ks w :
  isWarned (warnedProperties w) name = false →
  verdict D name debugID = Report d →
  name ∈ ks →
  let r := forIn D type debugID ks [] w in
  ∃ before after,
    console (snd r) = console w ++ before ++ d :: after
    ∧ citations name before = 0%nat ∧ citations name after = 0%nat
    ∧ (name ∉ fst r)
    ∧ isWarned (warnedProperties (snd r)) name = true.
Proof.
  intros Hw Hv. revert w Hw. cbv zeta.
  induction ks as [|k ks IH]; intros w Hw Hin.
  { by apply elem_of_nil in Hin. }
  rewrite forIn_cons. cbv zeta.
  destruct (decide (k = name)) as [->|Hkn].
  - (* the visit of [name] itself *)
    rewrite validateProperty_verdict, Hw, Hv. simpl.
    destruct (forIn_track name type debugID ks (mark name (emit d w)))
      as (new & Hlog & _ & Hquiet & _).
    destruct Hquiet as (Hnin & Hzero & Hsame).
    { left. rewrite isWarned_mark. by rewrite decide_True. }
    exists [], new. rewrite Hlog. simpl.
    split_and!; [by rewrite <- app_assoc|done|done|done|].
    rewrite (isWarned_lookup _ _ _ Hsame). simpl.
    rewrite isWarned_insert. by rewrite decide_True.
  - apply elem_of_cons in Hin as [?|Hin]; [done|].
    destruct (validateProperty_outcome type k debugID w)
      as [[-> _]|[(d' & -> & _ & _ & Hoff & _)|(-> & _)]]; simpl.
    + by apply IH.
    + destruct (IH (mark k (emit d' w)))
        as (before & after & Hlog & Hb & Ha & Hnin & Hmark); [|done|].
      { rewrite isWarned_mark. by rewrite decide_False. }
      exists (d' :: before), after. rewrite Hlog. simpl.
      split_and!; [by rewrite <- app_assoc| |done..].
      rewrite (citations_cons_report _ _ _ _ Hoff).
      rewrite decide_False by done. done.
    + destruct (IH (mark k w))
        as (before & after & Hlog & Hb & Ha & Hnin & Hmark); [|done|].
      { rewrite isWarned_mark. by rewrite decide_False. }
      exists before, after. rewrite Hlog. simpl.
      split_and!; [done..| |done].
      apply not_elem_of_cons. auto.
Qed.

Lemma validateProperties_report name d type props debugID w :
  isWarned (warnedProperties w) name = false →
  verdict D name debugID = Report d →
  name ∈ keys props →
  isCustomComponent D type props = false →
  let w' := snd (validateProperties D type props debugID w) in
  ∃ before after,
    console w' = console w ++ before ++ d :: after
    ∧ Forall (λ d', ¬ cites name d') before
    ∧ Forall (λ d', ¬ cites name d') after
    ∧ isWarned (warnedProperties w') name = true.
Proof.
  intros Hw Hv Hin Hc. unfold validateProperties. rewrite Hc.
  rewrite warnInvalidARIAProps_eq. cbv zeta. simpl.
  destruct (forIn_report name d type debugID (keys props) w Hw Hv Hin)
    as (before & after & Hlog & Hb & Ha & Hnin & Hmark).
  exists before,
    (after ++ batchedReport D
       (fst (forIn D type debugID (keys props) [] w)) type debugID).
  rewrite Hlog. split_and!; [|by apply citations_zero| |done].
  - by rewrite <- !app_assoc.
  - apply citations_zero.
    rewrite citations_app, citations_batchedReport, Ha.
    by rewrite decide_False.
Qed.

(** C4. A name not yet marked that matches the camel-case pattern, with
    [aria-] followed by its lowercased suffix absent from the table:
    [validateProperty] logs "Invalid ARIA attribute" with the name as
    authored, marks the name and returns [true] from the camel-case block,
    so the hyphenated block is not reached. In the validation of a standard
    element that has this property, that diagnostic is logged and no other
    diagnostic of the call, the batched report included, cites the name. *)
Theorem camel_case_unknown_reported tagName name debugID w :
  isWarned (warnedProperties w) name = false →
  rARIACamel_test D name = true →
  hasOwnProperty (validAriaProperties D)
    (lit "aria-" ++ toLowerCase D (drop 4 name)) = false →
  let d := InvalidARIAAttribute name (getStackAddendum D debugID) in
  validateProperty D tagName name debugID w = (true, mark name (emit d w))
  ∧ format d
    = "Invalid ARIA attribute `%s`. ARIA attributes follow the pattern aria-* and must be lowercase.%s"%string
  ∧ args d = [name; getStackAddendum D debugID]
  ∧ ∀ type props,
      name ∈ keys props →
      isCustomComponent D type props = false →
      let w' := snd (validateProperties D type props debugID w) in
      ∃ before after,
        console w' = console w ++ before ++ d :: after
        ∧ Forall (λ d', ¬ cites name d') before
        ∧ Forall (λ d', ¬ cites name d') after
        ∧ isWarned (warnedProperties w') name = true.
Proof.
  intros Hw Hc Hk.
  assert (verdict D name debugID
          = Report (InvalidARIAAttribute name (getStackAddendum D debugID)))
    as Hv.
  { unfold verdict. by rewrite Hc, Hk. }
  cbv zeta. split_and!; [|done|done|].
  - by rewrite validateProperty_verdict, Hw, Hv.
  - intros type props Hin Hcustom.
    by apply validateProperties_report.
Qed.

(** C5. A name not yet marked that matches the hyphenated pattern, whose
    lowercased form is in the table and differs from the name as authored:
    [validateProperty] logs one "Unknown ARIA attribute ... Did you mean"
    diagnostic with the authored name and the lowercased suggestion, and
    marks the authored name. In the validation of a standard element that
    has this property, this is the only diagnostic citing the name. *)
Theorem wrong_case_suggestion tagName name debugID w :
  isWarned (warnedProperties w) name = false →
  rARIA_test D name = true →
  hasOwnProperty (validAriaProperties D) (toLowerCase D name) = true →
  toLowerCase D name ≠ name →
  let d := UnknownARIADidYouMean name (toLowerCase D name)
             (getStackAddendum D debugID) in
  validateProperty D tagName name debugID w = (true, mark name (emit d w))
  ∧ format d = "Unknown ARIA attribute `%s`. Did you mean `%s`?%s"%string
  ∧ args d = [name; toLowerCase D name; getStackAddendum D debugID]
  ∧ ∀ type props,
      name ∈ keys props →
      isCustomComponent D type props = false →
      let w' := snd (validateProperties D type props debugID w) in
      ∃ before after,
        console w' = console w ++ before ++ d :: after
        ∧ Forall (λ d', ¬ cites name d') before
        ∧ Forall (λ d', ¬ cites name d') after
        ∧ isWarned (warnedProperties w') name = true.
Proof.
  intros Hw Hh Hk Hne.
  assert (verdict D name debugID
          = Report (UnknownARIADidYouMean name (toLowerCase D name)
                      (getStackAddendum D debugID))) as Hv.
  { unfold verdict, hyphenatedVerdict.
    destruct (rARIACamel_test D name) eqn:Hc.
    { apply camel_excludes_hyphenated in Hc. congruence. }
    rewrite Hh, Hk. by rewrite bool_decide_eq_true_2 by auto. }
  cbv zeta. split_and!; [|done|done|].
  - by rewrite validateProperty_verdict, Hw, Hv.
  - intros type props Hin Hcustom.
    by apply validateProperties_report.
Qed.

Lemma deferred_verdict w n debugID :
  deferred D w n = true ↔
  isWarned (warnedProperties w) n = false ∧ verdict D n debugID = Defer.
Proof.
  unfold deferred. rewrite verdict_defer, !andb_true_iff, !negb_true_iff.
  tauto.
Qed.

Lemma deferred_isWarned w w0 n :
  isWarned (warnedProperties w) n = isWarned (warnedProperties w0) n →
  deferred D w n = deferred D w0 n.
Proof. unfold deferred. by intros ->. Qed.

(** Over keys without repetition the loop collects, in the order of the
    keys, exactly the names that were unmarked, hyphenated and unknown when
    it began. *)
Lemma forIn_collects type debugID ks w w0 :
  NoDup ks →
  (∀ n, n ∈ ks →
     isWarned (warnedProperties w) n = isWarned (warnedProperties w0) n) →
  fst (forIn D type debugID ks [] w)
  = filter (λ n, deferred D w0 n = true) ks.
Proof.
  intros Hnd. revert w.
  induction Hnd as [|k ks Hk Hnd IH]; intros w Hsame; [done|].
  rewrite forIn_cons, filter_cons. cbv zeta. simpl.
  assert (∀ w1,
    (warnedProperties w1 = warnedProperties w
     ∨ warnedProperties w1 = <[k := true]> (warnedProperties w)) →
    fst (forIn D type debugID ks [] w1)
    = filter (λ n, deferred D w0 n = true) ks) as Hrest.
  { intros w1 Hw1. apply IH. intros n Hn.
    rewrite <- Hsame by (by right).
    destruct Hw1 as [->| ->]; [done|].
    rewrite isWarned_insert, decide_False; [done|]. by intros ->. }
  assert (deferred D w0 k = deferred D w k) as Hdk.
  { apply deferred_isWarned. symmetry. apply Hsame. by left. }
  destruct (validateProperty_outcome type k debugID w)
    as [[-> Hq]|[(d & -> & Hw & Hv & _)|(-> & Hw & Hv)]]; simpl.
  - rewrite decide_False, Hrest; [done|by left|].
    rewrite Hdk, (deferred_verdict _ _ debugID).
    intros [? ?]. destruct Hq; congruence.
  - rewrite decide_False, Hrest; [done|by right|].
    rewrite Hdk, (deferred_verdict _ _ debugID).
    intros [? ?]. congruence.
  - rewrite decide_True, Hrest; [done|by right|].
    rewrite Hdk. by apply (deferred_verdict _ _ debugID).
Qed.

(** C2. The validation of a standard element, whose keys are distinct,
    collects the names that match the hyphenated pattern, whose lowercased
    form is not in the table and that are not marked, in the order of
    enumeration. After the diagnostics on single names it emits the batched
    report: nothing if no name was collected, the singular message with the
    one quoted name if there is one, the plural message with all the quoted
    names joined by a comma and a space if there are more. *)
Theorem batched_unknown_report type props debugID w :
  isCustomComponent D type props = false →
  NoDup (keys props) →
  let collected := filter (λ n, deferred D w n = true) (keys props) in
  let quoted := (λ prop, lit "`" ++ prop ++ lit "`") <$> collected in
  let addendum := getStackAddendum D debugID in
  ∃ perName batch,
    console (snd (validateProperties D type props debugID w))
    = console w ++ perName ++ batch
    ∧ Forall (λ d, isBatched d = false) perName
    ∧ match collected with
      | [] => batch = []
      | [n] =>
          ∃ d, batch = [d] ∧ offending d = [n]
            ∧ format d
              = "Invalid aria prop %s on <%s> tag. For details, see https://fb.me/invalid-aria-prop%s"%string
            ∧ args d = [lit "`" ++ n ++ lit "`"; type; addendum]
      | _ =>
          ∃ d, batch = [d] ∧ offending d = collected
            ∧ format d
              = "Invalid aria props %s on <%s> tag. For details, see https://fb.me/invalid-aria-prop%s"%string
            ∧ args d = [join (lit ", ") quoted; type; addendum]
      end.
Proof.
  intros Hc Hnd. cbv zeta. unfold validateProperties. rewrite Hc.
  rewrite warnInvalidARIAProps_eq. cbv zeta. simpl.
  destruct (forIn_log type debugID (keys props) w) as (new & -> & Hnb).
  rewrite (forIn_collects type debugID (keys props) w w Hnd) by done.
  exists new, (batchedReport D
    (filter (λ n, deferred D w n = true) (keys props)) type debugID).
  split_and!; [by rewrite app_assoc|done|].
  destruct (filter _ (keys props)) as [|a [|b l]]; simpl; eauto 10.
Qed.

(** C3, as the code has it. A name not yet marked that matches the
    hyphenated pattern and whose lowercased form is not in the table is
    collected by [validateProperty] ([false] is returned and nothing is
    logged) and is marked at that very point. The batched report that
    follows the loop leaves [warnedProperties] as the loop left it. *)
Theorem unknown_hyphenated_marked_when_collected tagName name debugID w :
  isWarned (warnedProperties w) name = false →
  rARIA_test D name = true →
  hasOwnProperty (validAriaProperties D) (toLowerCase D name) = false →
  validateProperty D tagName name debugID w = (false, mark name w)
  ∧ warnedProperties (mark name w) !! name = Some true
  ∧ console (mark name w) = console w
  ∧ ∀ type props debugID' w0,
      warnedProperties (snd (warnInvalidARIAProps D type props debugID' w0))
      = warnedProperties (snd (forIn D type debugID' (keys props) [] w0)).
Proof.
  intros Hw Hh Hk.
  assert (verdict D name debugID = Defer) as Hv by by apply verdict_defer.
  split_and!.
  - by rewrite validateProperty_verdict, Hw, Hv.
  - apply lookup_insert_eq.
  - done.
  - intros. by rewrite warnInvalidARIAProps_eq.
Qed.

End Properties.

(** * The hook run on concrete elements *)

Lemma custom_element_bypass_witness :
  validateProperties sampleDeps (lit "my-element")
    [(lit "aria-foo", JSNull); (lit "ariaFooBar", JSNull)] None initial
  = (tt, initial).
Proof.
  apply (custom_element_bypass sampleDeps). vm_compute. reflexivity.
Defined.

Lemma stack_hooks_guard_witness :
  (onBeforeMountComponent sampleDeps (Some 7) Nullish initial = (tt, initial)
   ∧ onBeforeUpdateComponent sampleDeps (Some 7) Nullish initial
     = (tt, initial))
  ∧ (onBeforeMountComponent sampleDeps (Some 7)
       (ReactElement (JSRef 1) [(lit "aria-foo", JSNull)]) initial
     = (tt, initial)
     ∧ onBeforeUpdateComponent sampleDeps (Some 7)
         (ReactElement (JSRef 1) [(lit "aria-foo", JSNull)]) initial
       = (tt, initial))
  ∧ onBeforeMountComponent sampleDeps (Some 7)
      (ReactElement (JSStr (lit "div")) [(lit "aria-foo", JSNull)]) initial
    = validateProperties sampleDeps (lit "div") [(lit "aria-foo", JSNull)]
        (Some 7) initial.
Proof.
  split; [|split].
  - apply (stack_hooks_guard sampleDeps (Some 7) Nullish initial).
    intros type props. discriminate.
  - apply (stack_hooks_guard sampleDeps (Some 7)
             (ReactElement (JSRef 1) [(lit "aria-foo", JSNull)]) initial).
    intros type props. discriminate.
  - apply (stack_hooks_guard sampleDeps (Some 7)
             (ReactElement (JSStr (lit "div")) [(lit "aria-foo", JSNull)])
             initial).
    reflexivity.
Defined.

Lemma name_reported_at_most_once_witness :
  let call := CallValidateProperties (lit "div")
                [(lit "aria-foo", JSNull)] None in
  let w := run sampleDeps [call] initial in
  citations (lit "aria-foo") (console w) = 1%nat
  ∧ isWarned (warnedProperties w) (lit "aria-foo") = true
  ∧ ∃ new, console (snd (perform sampleDeps call w)) = console w ++ new
           ∧ Forall (λ d, ¬ cites (lit "aria-foo") d) new.
Proof.
  intros call w.
  destruct (name_reported_at_most_once sampleDeps [call] (lit "aria-foo"))
    as [_ Hnext].
  destruct Hnext as (Hw & _ & Hlater).
  { vm_compute. constructor. }
  split_and!; [vm_compute; reflexivity|exact Hw|exact (Hlater call)].
Defined.

Lemma camel_case_unknown_reported_witness :
  validateProperty sampleDeps (lit "div") (lit "ariaFooBar") None initial
  = (true,
     mkWorld {[ lit "ariaFooBar" := true ]}
       [InvalidARIAAttribute (lit "ariaFooBar") []]).
Proof.
  apply (camel_case_unknown_reported sampleDeps (lit "div")
           (lit "ariaFooBar") None initial);
    vm_compute; reflexivity.
Defined.

Lemma wrong_case_suggestion_witness :
  validateProperty sampleDeps (lit "div") (lit "aria-Hidden") None initial
  = (true,
     mkWorld {[ lit "aria-Hidden" := true ]}
       [UnknownARIADidYouMean (lit "aria-Hidden") (lit "aria-hidden") []]).
Proof.
  apply (wrong_case_suggestion sampleDeps (lit "div")
           (lit "aria-Hidden") None initial);
    [vm_compute; reflexivity..|].
  vm_compute. discriminate.
Defined.

Lemma batched_unknown_report_witness :
  ∃ perName batch,
    console (snd (validateProperties sampleDeps (lit "div")
                    [(lit "aria-foo", JSRef 1); (lit "aria-bar", JSRef 2)]
                    None initial))
    = console initial ++ perName ++ batch
    ∧ Forall (λ d, isBatched d = false) perName
    ∧ ∃ d, batch = [d]
        ∧ offending d = [lit "aria-foo"; lit "aria-bar"]
        ∧ format d
          = "Invalid aria props %s on <%s> tag. For details, see https://fb.me/invalid-aria-prop%s"%string
        ∧ args d = [lit "`aria-foo`, `aria-bar`"; lit "div"; []].
Proof.
  apply (batched_unknown_report sampleDeps (lit "div")
           [(lit "aria-foo", JSRef 1); (lit "aria-bar", JSRef 2)]
           None initial).
  - vm_compute. reflexivity.
  - refine (bool_decide_unpack _ _). vm_compute. exact I.
Defined.

Lemma unknown_hyphenated_marked_when_collected_witness :
  validateProperty sampleDeps (lit "div") (lit "aria-foo") None initial
  = (false, mkWorld {[ lit "aria-foo" := true ]} []).
Proof.
  apply (unknown_hyphenated_marked_when_collected sampleDeps (lit "div")
           (lit "aria-foo") None initial);
    vm_compute; reflexivity.
Defined.

(** On [aria-foo], unknown and not yet marked, the visit of the loop
    returns [false] and has already marked the name, before any batched
    report exists. *)
Lemma marked_before_batched_report :
  deferred sampleDeps initial (lit "aria-foo") = true
  ∧ fst (validateProperty sampleDeps (lit "div") (lit "aria-foo") None
           initial) = false
  ∧ console (snd (validateProperty sampleDeps (lit "div") (lit "aria-foo")
                    None initial)) = []
  ∧ isWarned
      (warnedProperties
         (snd (validateProperty sampleDeps (lit "div") (lit "aria-foo")
                 None initial)))
      (lit "aria-foo") = true
  ∧ warnedProperties
      (snd (validateProperty sampleDeps (lit "div") (lit "aria-foo") None
              initial))
    ≠ warnedProperties initial.
Proof.
  split_and!; [vm_compute; reflexivity..|].
  intros Heq.
  assert (warnedProperties
            (snd (validateProperty sampleDeps (lit "div") (lit "aria-foo")
                    None initial)) !! lit "aria-foo"
          = warnedProperties initial !! lit "aria-foo") as Hl
    by by rewrite Heq.
  vm_compute in Hl. discriminate Hl.
Qed.

Lemma unobjectionable_names_silent_witness :
  validateProperty sampleDeps (lit "div") (lit "className") None initial
  = (true, initial)
  ∧ validateProperty sampleDeps (lit "div") (lit "aria-hidden") None initial
    = (true, initial)
  ∧ validateProperties sampleDeps (lit "div")
      [(lit "className", JSRef 1); (lit "aria-hidden", JSBoolean true)]
      None initial
    = (tt, initial).
Proof.
  assert (unobjectionable sampleDeps (lit "className")) as Hclass.
  { left. vm_compute. split; reflexivity. }
  assert (unobjectionable sampleDeps (lit "aria-hidden")) as Hhidden.
  { right. split_and!.
    - refine (bool_decide_unpack _ _). vm_compute. exact I.
    - vm_compute. reflexivity.
    - vm_compute. reflexivity. }
  destruct (unobjectionable_names_silent sampleDeps) as [Hname Helement].
  split_and!.
  - apply (Hname _ Hclass).
  - apply (Hname _ Hhidden).
  - apply Helement. repeat constructor; assumption.
Defined.

(** * Further properties of the hook *)

Section Further.

Context (D : Deps).

Implicit Types (name n k type tagName : JSString) (w : World)
  (debugID : option DebugID) (props : Props).

(** X2. The two patterns exclude each other: no name passes both
    [rARIACamel.test] and [rARIA.test], so the order of the two blocks of
    [validateProperty] decides nothing. A name passing either starts with
    the four code units of [aria]. *)
Theorem patterns_exclusive name :
  rARIACamel_test D name && rARIA_test D name = false
  ∧ (rARIACamel_test D name || rARIA_test D name = true →
     take 4 name = lit "aria").
Proof.
  split.
  - destruct (rARIACamel_test D name) eqn:Hc; [|done].
    by rewrite (camel_excludes_hyphenated D name Hc).
  - unfold rARIACamel_test, rARIA_test.
    rewrite orb_true_iff, !andb_true_iff, !bool_decide_eq_true.
    intros [[H4 _]|[H5 _]]; [done|].
    change 4%nat with (4 `min` 5)%nat.
    by rewrite <- take_take, H5.
Qed.

(** A verdict other than [Accept] is exactly a fault. *)
Lemma verdict_accept name debugID :
  verdict D name debugID = Accept ↔ faulted D name = false.
Proof.
  unfold verdict, hyphenatedVerdict, faulted.
  destruct (rARIACamel_test D name) eqn:Hc; cbv iota zeta.
  - rewrite orb_true_l.
    destruct (hasOwnProperty _ (_ ++ _)); [|done].
    rewrite bool_decide_eq_true_2; [done|].
    by apply (camel_differs_from_canonical D).
  - rewrite orb_false_l.
    destruct (rARIA_test D name); [|done]. rewrite andb_true_l.
    destruct (hasOwnProperty _ _); [|done]. rewrite andb_true_l.
    destruct (decide (toLowerCase D name = name)) as [Heq|Hne].
    + rewrite bool_decide_eq_false_2 by auto.
      by rewrite bool_decide_eq_true_2.
    + rewrite bool_decide_eq_true_2 by auto.
      by rewrite bool_decide_eq_false_2.
Qed.

Lemma verdict_fault name debugID :
  verdict D name debugID ≠ Accept ↔ faulted D name = true.
Proof.
  rewrite verdict_accept. by destruct (faulted D name).
Qed.

(** X1. A name not yet marked that matches the camel-case pattern is never
    accepted: [validateProperty] logs one diagnostic on it, marks it and
    returns [true]. When [aria-] followed by the lowercased suffix is a key
    of the table, the diagnostic is "Invalid ARIA attribute ... Did you
    mean" with that key as the suggestion; the comparison
    [name !== correctName] always succeeds, so the block never falls
    through to the hyphenated one. *)
Theorem camel_case_never_accepted tagName name debugID w :
  isWarned (warnedProperties w) name = false →
  rARIACamel_test D name = true →
  let ariaName := lit "aria-" ++ toLowerCase D (drop 4 name) in
  let d :=
    if hasOwnProperty (validAriaProperties D) ariaName
    then InvalidARIADidYouMean name ariaName (getStackAddendum D debugID)
    else InvalidARIAAttribute name (getStackAddendum D debugID) in
  name ≠ ariaName
  ∧ validateProperty D tagName name debugID w = (true, mark name (emit d w))
  ∧ (hasOwnProperty (validAriaProperties D) ariaName = true →
     format d = "Invalid ARIA attribute `%s`. Did you mean `%s`?%s"%string
     ∧ args d = [name; ariaName; getStackAddendum D debugID]).
Proof.
  intros Hw Hc. cbv zeta.
  assert (name ≠ lit "aria-" ++ toLowerCase D (drop 4 name)) as Hne
    by by apply (camel_differs_from_canonical D).
  split_and!; [done| |].
  - rewrite validateProperty_verdict, Hw. unfold verdict. rewrite Hc.
    cbv zeta. destruct (hasOwnProperty _ _); [|done].
    by rewrite bool_decide_eq_true_2.
  - by intros ->.
Qed.

(** A key of the loop that is not marked and is faulted is marked when
    the loop ends. *)
Lemma forIn_marks n type debugID ks w :
  n ∈ ks →
  isWarned (warnedProperties w) n = false →
  faulted D n = true →
  warnedProperties (snd (forIn D type debugID ks [] w)) !! n = Some true.
Proof.
  intros Hin Hw Hf. revert w Hw Hin.
  induction ks as [|k ks IH]; intros w Hw Hin.
  { by apply elem_of_nil in Hin. }
  rewrite forIn_cons. cbv zeta.
  destruct (decide (k = n)) as [->|Hkn].
  - assert (∀ w1,
      warnedProperties w1 = <[n := true]> (warnedProperties w) →
      warnedProperties (snd (forIn D type debugID ks [] w1)) !! n
      = Some true) as Hmarked.
    { intros w1 Hw1.
      destruct (forIn_track D n type debugID ks w1)
        as (new & _ & _ & Hquiet & _).
      destruct Hquiet as (_ & _ & ->).
      - left. rewrite Hw1, isWarned_insert. by rewrite decide_True.
      - rewrite Hw1. apply lookup_insert_eq. }
    destruct (validateProperty_outcome D type n debugID w)
      as [[_ [?|Hacc]]|[(d & -> & _)|(-> & _)]]; simpl.
    + congruence.
    + apply verdict_accept in Hacc. congruence.
    + by apply Hmarked.
    + by apply Hmarked.
  - apply elem_of_cons in Hin as [?|Hin]; [done|].
    destruct (validateProperty_outcome D type k debugID w)
      as [[-> _]|[(d & -> & _)|(-> & _)]]; simpl.
    + by apply IH.
    + apply IH; [|done]. simpl. rewrite isWarned_insert.
      by rewrite decide_False.
    + apply IH; [|done]. simpl. rewrite isWarned_insert.
      by rewrite decide_False.
Qed.

(** The entry of a name after the validation of a standard element. *)
Lemma validateProperties_entry type props debugID w n :
  isCustomComponent D type props = false →
  warnedProperties (snd (validateProperties D type props debugID w)) !! n
  = if bool_decide (n ∈ keys props)
       && negb (isWarned (warnedProperties w) n) && faulted D n
    then Some true
    else warnedProperties w !! n.
Proof.
  intros Hc. unfold validateProperties. rewrite Hc.
  rewrite warnInvalidARIAProps_eq. cbv zeta. simpl.
  destruct (forIn_track D n type debugID (keys props) w)
    as (new & _ & _ & Hquiet & _).
  destruct (decide (n ∈ keys props)) as [Hin|Hnin]; cycle 1.
  { rewrite bool_decide_eq_false_2 by done. apply Hquiet. auto. }
  rewrite bool_decide_eq_true_2 by done.
  destruct (isWarned (warnedProperties w) n) eqn:Hw.
  { apply Hquiet. auto. }
  destruct (faulted D n) eqn:Hf; simpl.
  - by apply forIn_marks.
  - apply Hquiet. right; left. by apply (verdict_accept n debugID).
Qed.

(** X3. The cache after the validation of a standard element, entry by
    entry: the marker [true] is set for each property name of the element
    that was not marked and is faulted (it matches the camel-case pattern,
    or the hyphenated one without being a lowercase key of the table);
    every other entry, the accepted names included, is as before. *)
Theorem cache_after_validation type props debugID w n :
  isCustomComponent D type props = false →
  warnedProperties (snd (validateProperties D type props debugID w)) !! n
  = if bool_decide (n ∈ keys props)
       && negb (isWarned (warnedProperties w) n) && faulted D n
    then Some true
    else warnedProperties w !! n.
Proof. apply validateProperties_entry. Qed.

(** X4. The cache after the validation of a standard element depends on
    the set of its property names only: not on the order of enumeration,
    the property values, the tag name or the debug id. *)
Theorem cache_independent_of_order type props debugID type' props' debugID' w :
  isCustomComponent D type props = false →
  isCustomComponent D type' props' = false →
  (∀ n, n ∈ keys props ↔ n ∈ keys props') →
  warnedProperties (snd (validateProperties D type props debugID w))
  = warnedProperties (snd (validateProperties D type' props' debugID' w)).
Proof.
  intros Hc Hc' Hkeys. apply map_eq. intros n.
  rewrite !validateProperties_entry by done.
  by rewrite (bool_decide_ext _ _ (Hkeys n)).
Qed.

(** A loop over names that are each marked or accepted does nothing. *)
Lemma forIn_all_quiet type debugID ks w :
  Forall (λ k, isWarned (warnedProperties w) k = true
               ∨ faulted D k = false) ks →
  forIn D type debugID ks [] w = ([], w).
Proof.
  induction 1 as [|k ks Hk _ IH]; [done|].
  rewrite forIn_cons, validateProperty_verdict.
  destruct Hk as [->|Hk]; simpl; [by rewrite IH|].
  apply (verdict_accept k debugID) in Hk. rewrite Hk.
  destruct (isWarned _ k); simpl; by rewrite IH.
Qed.

(** X5. Validation is idempotent on the whole world. After a standard
    element has been validated, validating it again, or any element whose
    property names are among its own, under any tag name and debug id,
    logs nothing and leaves the cache as it is. *)
Theorem revalidation_silent type props debugID type' props' debugID' w :
  isCustomComponent D type props = false →
  keys props' ⊆ keys props →
  let w1 := snd (validateProperties D type props debugID w) in
  validateProperties D type' props' debugID' w1 = (tt, w1).
Proof.
  intros Hc Hsub. cbv zeta.
  set (w1 := snd (validateProperties D type props debugID w)).
  unfold validateProperties at 1.
  destruct (isCustomComponent D type' props'); [done|].
  rewrite warnInvalidARIAProps_eq, forIn_all_quiet.
  { destruct w1. simpl. by rewrite app_nil_r. }
  apply Forall_forall. intros k Hk.
  destruct (faulted D k) eqn:Hf; [left|by right].
  unfold isWarned, w1.
  rewrite (validateProperties_entry type props debugID w k Hc).
  rewrite bool_decide_eq_true_2 by (by apply Hsub). rewrite Hf.
  unfold isWarned.
  destruct (warnedProperties w !! k) as [[|]|] eqn:Hk'; by rewrite ?Hk'.
Qed.

Lemma verdict_report_addendum name debugID d :
  verdict D name debugID = Report d →
  last (args d) = Some (getStackAddendum D debugID).
Proof.
  unfold verdict, hyphenatedVerdict. intros H.
  repeat case_match; simplify_eq; done.
Qed.

(** What the loop logs: one diagnostic at most for each key, none for a
    collected key; each on a key that was unmarked and is faulted, with
    the addendum of the call. The collected names are of that kind too. *)
Lemma forIn_emits type debugID ks w :
  let r := forIn D type debugID ks [] w in
  let sound k :=
    k ∈ ks ∧ isWarned (warnedProperties w) k = false
    ∧ faulted D k = true in
  ∃ new,
    console (snd r) = console w ++ new
    ∧ (length new + length (fst r) ≤ length ks)%nat
    ∧ Forall (λ d, (∃ k, offending d = [k] ∧ sound k)
                   ∧ last (args d) = Some (getStackAddendum D debugID)) new
    ∧ Forall sound (fst r).
Proof.
  cbv zeta. revert w. induction ks as [|k ks IH]; intros w.
  { exists []. simpl. rewrite app_nil_r. split_and!; by try constructor. }
  rewrite forIn_cons. cbv zeta.
  assert (∀ w1 new extra,
    (∀ n, isWarned (warnedProperties w1) n = false →
          isWarned (warnedProperties w) n = false) →
    Forall (λ d, (∃ k0, offending d = [k0]
                   ∧ k0 ∈ ks ∧ isWarned (warnedProperties w1) k0 = false
                   ∧ faulted D k0 = true)
                 ∧ last (args d) = Some (getStackAddendum D debugID)) new →
    Forall (λ k0, k0 ∈ ks ∧ isWarned (warnedProperties w1) k0 = false
                  ∧ faulted D k0 = true) extra →
    Forall (λ d, (∃ k0, offending d = [k0]
                   ∧ k0 ∈ k :: ks ∧ isWarned (warnedProperties w) k0 = false
                   ∧ faulted D k0 = true)
                 ∧ last (args d) = Some (getStackAddendum D debugID)) new
    ∧ Forall (λ k0, k0 ∈ k :: ks ∧ isWarned (warnedProperties w) k0 = false
                    ∧ faulted D k0 = true) extra) as Hlift.
  { intros w1 new extra Hmono Hnew Hextra. split.
    - eapply Forall_impl; [exact Hnew|]. simpl.
      intros d [(k0 & ? & ? & ? & ?) ?]. split; [|done].
      exists k0. split_and!; [done|by right|auto|done].
    - eapply Forall_impl; [exact Hextra|]. simpl.
      intros k0 (? & ? & ?). split_and!; [by right|auto|done]. }
  assert (∀ w1, warnedProperties w1 = <[k := true]> (warnedProperties w) →
    ∀ n, isWarned (warnedProperties w1) n = false →
         isWarned (warnedProperties w) n = false) as Hmono.
  { intros w1 -> n. rewrite isWarned_insert. by case_decide. }
  destruct (validateProperty_outcome D type k debugID w)
    as [[-> _]|[(d & -> & Hw & Hv & Hoff & _)|(-> & Hw & Hv)]]; simpl.
  - destruct (IH w) as (new & Hlog & Hlen & Hnew & Hextra).
    destruct (Hlift w new _ (λ _ H, H) Hnew Hextra) as [? ?].
    exists new. split_and!; [done|lia|done..].
  - destruct (IH (mark k (emit d w))) as (new & Hlog & Hlen & Hnew & Hextra).
    destruct (Hlift _ new _ (Hmono (mark k (emit d w)) eq_refl) Hnew Hextra)
      as [? ?].
    exists (d :: new). rewrite Hlog. simpl.
    split_and!; [by rewrite <- app_assoc|lia| |done].
    constructor; [|done]. split.
    + exists k. split_and!; [done|by left|done|].
      apply (verdict_fault k debugID). congruence.
    + by apply (verdict_report_addendum k).
  - destruct (IH (mark k w)) as (new & Hlog & Hlen & Hnew & Hextra).
    destruct (Hlift _ new _ (Hmono (mark k w) eq_refl) Hnew Hextra) as [? ?].
    exists new. rewrite Hlog. simpl.
    split_and!; [done|lia|done|].
    constructor; [|done]. split_and!; [by left|done|].
    apply (verdict_fault k debugID). congruence.
Qed.

Lemma batchedReport_length collected type debugID :
  (length (batchedReport D collected type debugID) ≤ length collected)%nat.
Proof. destruct collected as [|a [|b l]]; simpl; lia. Qed.

(** The diagnostics one validation adds to the log. *)
Lemma validateProperties_emits type props debugID w :
  let sound k :=
    k ∈ keys props ∧ isWarned (warnedProperties w) k = false
    ∧ faulted D k = true in
  ∃ new,
    console (snd (validateProperties D type props debugID w))
    = console w ++ new
    ∧ (length new ≤ length (keys props))%nat
    ∧ Forall (λ d, offending d ≠ [] ∧ Forall sound (offending d)
                   ∧ last (args d) = Some (getStackAddendum D debugID)
                   ∧ (isBatched d = true → args d !! 1%nat = Some type)) new.
Proof.
  cbv zeta. unfold validateProperties.
  destruct (isCustomComponent D type props).
  { exists []. simpl. rewrite app_nil_r. split_and!; [done|lia|constructor]. }
  rewrite warnInvalidARIAProps_eq. cbv zeta. simpl.
  destruct (forIn_emits type debugID (keys props) w)
    as (new & Hlog & Hlen & Hnew & Hextra).
  destruct (forIn_log D type debugID (keys props) w) as (new' & Hlog' & Hnb).
  rewrite Hlog in Hlog'. apply app_inv_head in Hlog' as <-.
  pose proof (batchedReport_length
    (fst (forIn D type debugID (keys props) [] w)) type debugID).
  exists (new ++ batchedReport D
            (fst (forIn D type debugID (keys props) [] w)) type debugID).
  rewrite Hlog, length_app.
  split_and!; [by rewrite app_assoc|lia|].
  apply Forall_app. split.
  - apply Forall_forall. intros d Hd.
    pose proof (proj1 (Forall_forall _ _) Hnew d Hd)
      as [(k & Hoff & Hk) Hadd].
    pose proof (proj1 (Forall_forall _ _) Hnb d Hd) as Hd'.
    rewrite Hoff. split_and!; [done|by constructor|done|].
    congruence.
  - destruct (fst (forIn D type debugID (keys props) [] w))
      as [|a [|b l]]; simpl.
    + constructor.
    + constructor; [|constructor]. by split_and!.
    + constructor; [|constructor]. by split_and!.
Qed.

(** X6. One validation logs at most as many diagnostics as the element has
    properties: a name gets a diagnostic of its own or is collected, never
    both, and all collected names share the one batched report. *)
Theorem diagnostics_bounded_by_properties type props debugID w :
  ∃ new,
    console (snd (validateProperties D type props debugID w))
    = console w ++ new
    ∧ (length new ≤ length props)%nat.
Proof.
  destruct (validateProperties_emits type props debugID w)
    as (new & Hlog & Hlen & _).
  exists new. split; [done|]. unfold keys in Hlen.
  by rewrite length_fmap in Hlen.
Qed.

(** X7. Every diagnostic logged by [validateProperties(type, props,
    debugID)] ends with the addendum [getStackAddendum(debugID)]: the stack
    of the component of that id when an id is given, else the stack of the
    current frame, or the empty string when there is none. The batched
    report also names the tag. *)
Theorem diagnostics_carry_addendum type props debugID w :
  (∃ new,
     console (snd (validateProperties D type props debugID w))
     = console w ++ new
     ∧ Forall (λ d, last (args d) = Some (getStackAddendum D debugID)
                    ∧ (isBatched d = true → args d !! 1%nat = Some type))
         new)
  ∧ getStackAddendum D debugID
    = match debugID with
      | Some id => getStackAddendumByID D id
      | None => default [] (ReactDebugCurrentFrame_getStackAddendum D tt)
      end.
Proof.
  split.
  - destruct (validateProperties_emits type props debugID w)
      as (new & Hlog & _ & Hnew).
    exists new. split; [done|].
    eapply Forall_impl; [exact Hnew|]. simpl. tauto.
  - unfold getStackAddendum. destruct debugID; [done|].
    by destruct (ReactDebugCurrentFrame_getStackAddendum D ()).
Qed.

(** X8. A diagnostic of a validation cites at least one name, and only
    property names of the validated element that were not marked before
    the call and are faulted. The tag name and names of other elements are
    never reported. *)
Theorem diagnostics_cite_own_properties type props debugID w :
  ∃ new,
    console (snd (validateProperties D type props debugID w))
    = console w ++ new
    ∧ ∀ d, d ∈ new →
        offending d ≠ []
        ∧ ∀ n, cites n d →
            n ∈ keys props
            ∧ isWarned (warnedProperties w) n = false
            ∧ faulted D n = true.
Proof.
  destruct (validateProperties_emits type props debugID w)
    as (new & Hlog & _ & Hnew).
  exists new. split; [done|]. intros d Hd.
  pose proof (proj1 (Forall_forall _ _) Hnew d Hd) as (Hne & Hall & _).
  split; [done|]. intros n Hn.
  by apply (proj1 (Forall_forall _ _) Hall n).
Qed.

(** A key of the loop that is not marked and is faulted gets a diagnostic
    of its own or is collected. *)
Lemma forIn_reports n type debugID ks w :
  n ∈ ks →
  isWarned (warnedProperties w) n = false →
  faulted D n = true →
  let r := forIn D type debugID ks [] w in
  ∃ new,
    console (snd r) = console w ++ new
    ∧ ((1 ≤ citations n new)%nat ∨ n ∈ fst r).
Proof.
  intros Hin Hw Hf. cbv zeta. revert w Hw Hin.
  induction ks as [|k ks IH]; intros w Hw Hin.
  { by apply elem_of_nil in Hin. }
  rewrite forIn_cons. cbv zeta.
  destruct (decide (k = n)) as [->|Hkn].
  - destruct (validateProperty_outcome D type n debugID w)
      as [[_ [?|Hacc]]|[(d & -> & _ & _ & Hoff & _)|(-> & _)]]; simpl.
    + congruence.
    + apply verdict_accept in Hacc. congruence.
    + destruct (forIn_log D type debugID ks (mark n (emit d w)))
        as (new & -> & _).
      exists (d :: new). simpl. split; [by rewrite <- app_assoc|].
      left. rewrite (citations_cons_report _ _ _ _ Hoff).
      rewrite decide_True by done. lia.
    + destruct (forIn_log D type debugID ks (mark n w)) as (new & -> & _).
      exists new. split; [done|]. right. by left.
  - apply elem_of_cons in Hin as [?|Hin]; [done|].
    destruct (validateProperty_outcome D type k debugID w)
      as [[-> _]|[(d & -> & _ & _ & Hoff & _)|(-> & _)]]; simpl.
    + by apply IH.
    + destruct (IH (mark k (emit d w))) as (new & -> & Hn); [|done|].
      { simpl. rewrite isWarned_insert. by rewrite decide_False. }
      exists (d :: new). simpl. split; [by rewrite <- app_assoc|].
      rewrite (citations_cons_report _ _ _ _ Hoff).
      rewrite decide_False by done. done.
    + destruct (IH (mark k w)) as (new & -> & Hn); [|done|].
      { simpl. rewrite isWarned_insert. by rewrite decide_False. }
      exists new. split; [done|].
      destruct Hn as [?|?]; [by left|right; by right].
Qed.

Lemma validateProperties_reports n type props debugID w :
  isCustomComponent D type props = false →
  n ∈ keys props →
  isWarned (warnedProperties w) n = false →
  faulted D n = true →
  ∃ new,
    console (snd (validateProperties D type props debugID w))
    = console w ++ new
    ∧ citations n new = 1%nat.
Proof.
  intros Hc Hin Hw Hf.
  destruct (perform_track D n (CallValidateProperties type props debugID) w)
    as (new & Hlog & _ & Hone & _).
  simpl in Hlog. exists new. split; [done|].
  cut (1 ≤ citations n new)%nat; [lia|].
  revert Hlog. unfold validateProperties. rewrite Hc.
  rewrite warnInvalidARIAProps_eq. cbv zeta. simpl.
  destruct (forIn_reports n type debugID (keys props) w Hin Hw Hf)
    as (new' & -> & Hn).
  rewrite <- app_assoc. intros <-%app_inv_head.
  rewrite citations_app, citations_batchedReport.
  destruct Hn as [?|Hn]; [lia|]. rewrite decide_True by done. lia.
Qed.

(** X9. Nothing is passed over: each property name of a standard element
    that is faulted and not yet marked is cited by exactly one of the
    diagnostics of the validation, its own or the batched report. *)
Theorem faulted_names_reported n type props debugID w :
  isCustomComponent D type props = false →
  n ∈ keys props →
  isWarned (warnedProperties w) n = false →
  faulted D n = true →
  ∃ new,
    console (snd (validateProperties D type props debugID w))
    = console w ++ new
    ∧ citations n new = 1%nat.
Proof. apply validateProperties_reports. Qed.

Lemma perform_validates c w :
  perform D c w = (tt, w)
  ∨ ∃ type props debugID,
      isCustomComponent D type props = false
      ∧ perform D c w = validateProperties D type props debugID w.
Proof.
  destruct (perform_cases D c w) as [?|(type & props & debugID & Hc & ->)];
    [by left|right].
  exists type, props, debugID. split; [done|].
  unfold validateProperties. by rewrite Hc.
Qed.

(** At the end of every run a marked name has been cited, and stored names
    are faulted. *)
Lemma run_marked calls n :
  let w := run D calls initial in
  (isWarned (warnedProperties w) n = true →
   (1 ≤ citations n (console w))%nat)
  ∧ (is_Some (warnedProperties w !! n) → faulted D n = true).
Proof.
  induction calls as [|c calls IH] using rev_ind.
  { simpl. split; [done|]. rewrite lookup_empty. by intros [? ?]. }
  rewrite run_snoc. cbv zeta in *. destruct IH as [IHc IHf].
  destruct (perform_validates c (run D calls initial))
    as [->|(type & props & debugID & Hc & ->)]; [done|].
  destruct (validateProperties_emits type props debugID
              (run D calls initial)) as (new & Hlog & _).
  unfold isWarned at 1.
  rewrite (validateProperties_entry type props debugID _ n Hc).
  rewrite Hlog, citations_app.
  destruct (decide (n ∈ keys props)) as [Hin|Hnin]; cycle 1.
  { rewrite bool_decide_eq_false_2 by done. simpl. split; [|done].
    intros Hw. specialize (IHc Hw). lia. }
  rewrite bool_decide_eq_true_2 by done.
  destruct (isWarned (warnedProperties (run D calls initial)) n) eqn:Hw;
    simpl.
  { split; [|done]. intros _. specialize (IHc eq_refl). lia. }
  destruct (faulted D n) eqn:Hf; simpl.
  - split; [|done]. intros _.
    destruct (validateProperties_reports n type props debugID
                (run D calls initial) Hc Hin Hw Hf) as (new' & Hlog' & Hone).
    rewrite Hlog in Hlog'. apply app_inv_head in Hlog' as <-. lia.
  - split; [|done]. unfold isWarned in Hw. intros Hw'.
    destruct (warnedProperties (run D calls initial) !! n); congruence.
Qed.

(** X10. At every point between the calls of a process started with the
    empty cache, the marked names are exactly the reported ones: a name is
    marked if and only if exactly one logged diagnostic cites it. No name
    is suppressed without having been reported. *)
Theorem marked_iff_reported calls n :
  isWarned (warnedProperties (run D calls initial)) n = true
  ↔ citations n (console (run D calls initial)) = 1%nat.
Proof.
  destruct (run_citations D calls n) as [Hone Hmark].
  destruct (run_marked calls n) as [Hcited _]. cbv zeta in *.
  split.
  - intros Hw. specialize (Hcited Hw). lia.
  - intros Hc. apply Hmark. lia.
Qed.

(** X11. Every name stored in the cache, at any point of a process started
    with the empty cache, is faulted: it matches one of the two patterns,
    so it starts with [aria], and accepted names are never stored. *)
Theorem cache_holds_faulted_names calls n :
  is_Some (warnedProperties (run D calls initial) !! n) →
  faulted D n = true
  ∧ (rARIACamel_test D n || rARIA_test D n = true)
  ∧ take 4 n = lit "aria".
Proof.
  intros Hn. destruct (run_marked calls n) as [_ Hf].
  specialize (Hf Hn). split; [done|].
  assert (rARIACamel_test D n || rARIA_test D n = true) as Hp.
  { unfold faulted in Hf. destruct (rARIACamel_test D n); [done|].
    by destruct (rARIA_test D n). }
  split; [done|].
  revert Hp. unfold rARIACamel_test, rARIA_test.
  rewrite orb_true_iff, !andb_true_iff, !bool_decide_eq_true.
  intros [[H4 _]|[H5 _]]; [done|].
  change 4%nat with (4 `min` 5)%nat.
  by rewrite <- take_take, H5.
Qed.

End Further.

(** * The further properties on concrete elements *)

Lemma camel_case_never_accepted_witness :
  validateProperty sampleDeps (lit "div") (lit "ariaLabelledBy") (Some 3)
    initial
  = (true,
     mkWorld {[ lit "ariaLabelledBy" := true ]}
       [InvalidARIADidYouMean (lit "ariaLabelledBy") (lit "aria-labelledby")
          (lit " (in div, created by App)")]).
Proof.
  apply (camel_case_never_accepted sampleDeps (lit "div")
           (lit "ariaLabelledBy") (Some 3) initial);
    vm_compute; reflexivity.
Defined.

Lemma cache_after_validation_witness :
  warnedProperties
    (snd (validateProperties sampleDeps (lit "div")
            [(lit "aria-foo", JSNull); (lit "aria-label", JSNull)]
            None initial)) !! lit "aria-foo" = Some true
  ∧ warnedProperties
      (snd (validateProperties sampleDeps (lit "div")
              [(lit "aria-foo", JSNull); (lit "aria-label", JSNull)]
              None initial)) !! lit "aria-label" = None.
Proof.
  split.
  - apply (cache_after_validation sampleDeps (lit "div")
             [(lit "aria-foo", JSNull); (lit "aria-label", JSNull)]
             None initial (lit "aria-foo")).
    vm_compute. reflexivity.
  - apply (cache_after_validation sampleDeps (lit "div")
             [(lit "aria-foo", JSNull); (lit "aria-label", JSNull)]
             None initial (lit "aria-label")).
    vm_compute. reflexivity.
Defined.

Lemma cache_independent_of_order_witness :
  warnedProperties
    (snd (validateProperties sampleDeps (lit "div")
            [(lit "aria-foo", JSNull); (lit "ariaFooBar", JSRef 1)]
            None initial))
  = warnedProperties
      (snd (validateProperties sampleDeps (lit "span")
              [(lit "ariaFooBar", JSRef 2); (lit "aria-foo", JSRef 3)]
              (Some 5) initial)).
Proof.
  apply (cache_independent_of_order sampleDeps).
  - vm_compute. reflexivity.
  - vm_compute. reflexivity.
  - intros n. unfold keys. simpl. rewrite !elem_of_cons. tauto.
Defined.

Lemma revalidation_silent_witness :
  validateProperties sampleDeps (lit "span") [(lit "aria-foo", JSRef 2)]
    (Some 5)
    (snd (validateProperties sampleDeps (lit "div")
            [(lit "aria-foo", JSNull); (lit "ariaFooBar", JSRef 1)]
            None initial))
  = (tt,
     snd (validateProperties sampleDeps (lit "div")
            [(lit "aria-foo", JSNull); (lit "ariaFooBar", JSRef 1)]
            None initial)).
Proof.
  apply (revalidation_silent sampleDeps (lit "div")
           [(lit "aria-foo", JSNull); (lit "ariaFooBar", JSRef 1)] None
           (lit "span") [(lit "aria-foo", JSRef 2)] (Some 5) initial).
  - vm_compute. reflexivity.
  - intros n. unfold keys. simpl. rewrite !elem_of_cons. tauto.
Defined.

Lemma faulted_names_reported_witness :
  ∃ new,
    console (snd (validateProperties sampleDeps (lit "div")
                    [(lit "aria-foo", JSNull); (lit "aria-bar", JSNull)]
                    None initial))
    = console initial ++ new
    ∧ citations (lit "aria-bar") new = 1%nat.
Proof.
  apply (faulted_names_reported sampleDeps (lit "aria-bar") (lit "div")
           [(lit "aria-foo", JSNull); (lit "aria-bar", JSNull)]
           None initial).
  - vm_compute. reflexivity.
  - unfold keys. simpl. rewrite !elem_of_cons. auto.
  - vm_compute. reflexivity.
  - vm_compute. reflexivity.
Defined.

Lemma cache_holds_faulted_names_witness :
  faulted sampleDeps (lit "aria-foo") = true
  ∧ (rARIACamel_test sampleDeps (lit "aria-foo")
     || rARIA_test sampleDeps (lit "aria-foo") = true)
  ∧ take 4 (lit "aria-foo") = lit "aria".
Proof.
  apply (cache_holds_faulted_names sampleDeps
           [CallValidateProperties (lit "div") [(lit "aria-foo", JSNull)]
              None]
           (lit "aria-foo")).
  exists true. vm_compute. reflexivity.
Defined.

(** * The module as it runs *)

Section RuntimeProperties.

Context (D : Deps).

Implicit Types (name n k type tagName : JSString) (s : Runtime.Store)
  (debugID : option DebugID) (props : N).

Ltac runtime_unfold :=
  unfold Runtime.isValidAriaProperty, Runtime.warn, Runtime.withBinding,
    Runtime.devOnly, Runtime.onWorld, Runtime.throw, mbind, Runtime.R_bind,
    mret, Runtime.R_ret, M_bind, M_ret, warning, markWarned.

(** ** The heap is only read *)












(** ** Agreement with the first embedding in a development build *)







(** ** A build without the flag *)

Lemma runtime_hyphenatedCheck_production name debugID s :
  __DEV__ D = false →
  Runtime.hyphenatedCheck D name debugID s
  = (if rARIA_test D name then Runtime.Throw Runtime.TypeError
     else Runtime.Normal true, s).
Proof.
  intros Hdev. unfold Runtime.hyphenatedCheck.
  destruct (rARIA_test D name); [|done].
  runtime_unfold. by rewrite Hdev.
Qed.

Lemma runtime_validateProperty_production tagName name debugID s :
  __DEV__ D = false →
  Runtime.validateProperty D tagName name debugID s
  = (if negb (isWarned (warnedProperties (Runtime.world s)) name)
        && (rARIACamel_test D name || rARIA_test D name)
     then Runtime.Throw Runtime.TypeError
     else Runtime.Normal true, s).
Proof.
  intros Hdev. unfold Runtime.validateProperty.
  destruct (isWarned _ name); [done|].
  destruct (rARIACamel_test D name); simpl.
  - runtime_unfold. by rewrite Hdev.
  - by apply runtime_hyphenatedCheck_production.
Qed.

Lemma runtime_forIn_production type debugID ks acc s :
  __DEV__ D = false →
  Runtime.forIn D type debugID ks acc s
  = (if existsb
          (λ k, negb (isWarned (warnedProperties (Runtime.world s)) k)
                && (rARIACamel_test D k || rARIA_test D k)) ks
     then Runtime.Throw Runtime.TypeError
     else Runtime.Normal acc, s).
Proof.
  intros Hdev. induction ks as [|k ks IH]; simpl; [done|].
  unfold mbind, Runtime.R_bind.
  rewrite (runtime_validateProperty_production _ _ _ _ Hdev).
  destruct (negb _ && _); simpl; [done|]. apply IH.
Qed.

(** X12. In a build without [__DEV__] the bindings of lines 25 to 34 are
    [undefined]. A direct call of [validateProperties] then throws a
    [TypeError] exactly when the element is not custom and one of its
    property names is not marked and matches one of the two patterns;
    otherwise it returns normally. In both cases the cache, the log and
    the heap are as before. *)
Theorem production_build_behaviour type props debugID s :
  __DEV__ D = false →
  Runtime.validateProperties D type props debugID s
  = (if negb (isCustomComponent D type (Runtime.deref s props))
        && existsb
             (λ k, negb (isWarned (warnedProperties (Runtime.world s)) k)
                   && (rARIACamel_test D k || rARIA_test D k))
             (keys (Runtime.deref s props))
     then Runtime.Throw Runtime.TypeError
     else Runtime.Normal tt, s).
Proof.
  intros Hdev. unfold Runtime.validateProperties.
  destruct (isCustomComponent D type _); [done|].
  unfold Runtime.warnInvalidARIAProps.
  unfold mbind at 1, Runtime.R_bind.
  rewrite (runtime_forIn_production _ _ _ _ _ Hdev).
  by destruct (existsb _ _).
Qed.

End RuntimeProperties.

(** * The module run on a concrete heap *)



Lemma production_build_behaviour_witness :
  Runtime.validateProperties productionDeps (lit "div") 0 None
    (Runtime.mkStore initial {[ 0 := [(lit "className", JSNull)] ]})
  = (Runtime.Normal tt,
     Runtime.mkStore initial {[ 0 := [(lit "className", JSNull)] ]}).
Proof.
  refine (eq_trans
            (production_build_behaviour productionDeps (lit "div") 0 None
               (Runtime.mkStore initial
                  {[ 0 := [(lit "className", JSNull)] ]}) eq_refl) _).
  vm_compute. reflexivity.
Defined.
